(** * The ODE system simulator of simulateChemicals.py

    A shallow embedding of the class [ODESystemSimulator] (the constructor,
    [getOutput], [concentrations], [trajectories]) and of the module-level
    vector field [dX_dt].

    Numbers are IEEE binary64 values, as Python floats and numpy's float64
    are.  Python objects that the code shares by reference (the simulator
    instance, the lists of initial conditions, the time grids, the numpy grids
    of the direction field) live in a store and are named by locations.
    The libraries the script imports (scipy's [odeint], numpy's [hypot],
    pylab's axis limits) are interfaces: the development is parametric in
    them and states what it assumes of them where it assumes it. *)

From Stdlib Require Import ZArith List Floats Bool Lia Uint63.
From stdpp Require Import base option list gmap strings pretty.

(** ** Python values and exceptions *)

Definition loc := positive.

Inductive exn : Type :=
| TypeError
| ValueError
| IndexError
| AttributeError
| OverflowError
| SolverError (code : Z).

Inductive outcome (A : Type) : Type :=
| Return (a : A)
| Raise (e : exn).
Arguments Return {A} a.
Arguments Raise {A} e.

Definition is_return {A} (r : outcome A) : bool :=
  match r with Return _ => true | Raise _ => false end.

(** A two-dimensional float64 array: its shape and its rows. *)
Record ndarray : Type := mk_ndarray {
  shape : nat * nat;
  cells : list (list float)
}.

Definition wf_ndarray (a : ndarray) : Prop :=
  length (cells a) = fst (shape a) /\
  Forall (fun row => length row = snd (shape a)) (cells a).

Definition cell (a : ndarray) (i j : nat) : option float :=
  match cells a !! i with
  | Some row => row !! j
  | None => None
  end.

(** What a vector field receives for a state variable and hands back for a
    derivative: a number, or a reference to a numpy array. *)
Inductive pyval : Type :=
| VFloat (x : float)
| VArray (l : loc).

Abbreviation array_store := (gmap loc ndarray).

Definition alloc_array (a : ndarray) (s : array_store) : loc * array_store :=
  let l := fresh (dom s) in (l, <[l := a]> s).

(** ** Floating-point helpers *)

(** The float of a small non-negative int (below 2^63). *)
Definition float_of_Z (z : Z) : float := PrimFloat.of_uint63 (Uint63.of_Z z).

(** numpy's [a == 0] on one element. *)
Definition eq_zero (x : float) : bool := PrimFloat.eqb x 0%float.

(** [base ** n] for a float base and a non-negative int exponent; Python
    raises OverflowError when the result is out of range. *)
Fixpoint float_pow_nat (base : float) (n : nat) : float :=
  match n with
  | O => 1%float
  | S k => PrimFloat.mul base (float_pow_nat base k)
  end.

Definition py_float_pow (base : float) (n : nat) : outcome float :=
  let r := float_pow_nat base n in
  if PrimFloat.is_infinity r && negb (PrimFloat.is_infinity base)
  then Raise OverflowError else Return r.

(** ** Elementwise array arithmetic with scalar broadcasting *)

Definition shape_eqb (s1 s2 : nat * nat) : bool :=
  Nat.eqb (fst s1) (fst s2) && Nat.eqb (snd s1) (snd s2).

Definition map_cells (op : float -> float) (a : ndarray) : ndarray :=
  mk_ndarray (shape a) (map (map op) (cells a)).

Definition zip_cells (op : float -> float -> float) (a b : ndarray) : ndarray :=
  mk_ndarray (shape a) (zip_with (zip_with op) (cells a) (cells b)).

(** A binary numpy operation on two operands.  Two numbers give a number; an
    array and a number broadcast to a new array; two arrays of one shape give
    a new array.  Arrays of different shapes are refused with ValueError (all
    the grids built in this file have one shape). *)
Definition np_binop (op : float -> float -> float) (u v : pyval) (s : array_store)
  : outcome pyval * array_store :=
  match u, v with
  | VFloat x, VFloat y => (Return (VFloat (op x y)), s)
  | VFloat x, VArray lb =>
      match s !! lb with
      | Some b => let '(l, s') := alloc_array (map_cells (op x) b) s in (Return (VArray l), s')
      | None => (Raise TypeError, s)
      end
  | VArray la, VFloat y =>
      match s !! la with
      | Some a => let '(l, s') := alloc_array (map_cells (fun x => op x y) a) s in (Return (VArray l), s')
      | None => (Raise TypeError, s)
      end
  | VArray la, VArray lb =>
      match s !! la, s !! lb with
      | Some a, Some b =>
          if shape_eqb (shape a) (shape b)
          then let '(l, s') := alloc_array (zip_cells op a b) s in (Return (VArray l), s')
          else (Raise ValueError, s)
      | _, _ => (Raise TypeError, s)
      end
  end.

(** A unary numpy operation: on a number, or elementwise into a new array. *)
Definition np_unop (op : float -> float) (u : pyval) (s : array_store)
  : outcome pyval * array_store :=
  match u with
  | VFloat x => (Return (VFloat (op x)), s)
  | VArray la =>
      match s !! la with
      | Some a => let '(l, s') := alloc_array (map_cells op a) s in (Return (VArray l), s')
      | None => (Raise TypeError, s)
      end
  end.

(** ** A state and exception monad

    A computation over a state [S] ends with a value or a raised exception,
    and with the state it leaves behind. *)

Definition M (S A : Type) : Type := S -> outcome A * S.

Definition ret {S A} (a : A) : M S A := fun s => (Return a, s).

Definition raise {S A} (e : exn) : M S A := fun s => (Raise e, s).

Definition bind {S A B} (m : M S A) (k : A -> M S B) : M S B :=
  fun s => match m s with
           | (Return a, s') => k a s'
           | (Raise e, s') => (Raise e, s')
           end.

Definition lift_outcome {S A} (r : outcome A) : M S A := fun s => (r, s).

Declare Scope py_scope.
Delimit Scope py_scope with py.
Notation "x <- m ;; k" := (bind m (fun x => k))
  (at level 100, m at next level, right associativity) : py_scope.
Notation "m ;;; k" := (bind m (fun _ => k))
  (at level 100, right associativity) : py_scope.
Local Open Scope py_scope.

(** A [for] loop over a list, with an accumulator threaded through the body. *)
Fixpoint for_each {S A B} (xs : list A) (acc : B) (step : A -> B -> M S B) : M S B :=
  match xs with
  | [] => ret acc
  | x :: rest => acc' <- step x acc ;; for_each rest acc' step
  end.

(** Python's [seq[k]]: a negative index counts from the end. *)
Definition py_index {A} (xs : list A) (k : Z) : outcome A :=
  let n := Z.of_nat (length xs) in
  let i := if (k <? 0)%Z then (k + n)%Z else k in
  if ((0 <=? i)%Z && (i <? n)%Z)%bool
  then match xs !! Z.to_nat i with
       | Some x => Return x
       | None => Raise IndexError
       end
  else Raise IndexError.

(** numpy's [X[:, k]]: column [k] of a two-dimensional array. *)
Definition column (a : ndarray) (k : Z) : outcome (list float) :=
  let n := Z.of_nat (snd (shape a)) in
  let i := if (k <? 0)%Z then (k + n)%Z else k in
  if ((0 <=? i)%Z && (i <? n)%Z)%bool
  then Return (map (fun row => default 0%float (row !! Z.to_nat i)) (cells a))
  else Raise IndexError.

(** ** Vector fields

    The right-hand side of the system is a Python callable
    [f(inputs, t)] or [f(inputs, t=default)].  Its body computes with numpy
    values, so it may allocate arrays and may hand back a reference to an
    array it was given. *)
Record VectorField : Type := mk_VectorField {
  time_default : option float;
  body : list pyval -> pyval -> M array_store (list pyval)
}.

(** [f(inputs, t)]: the call the solver makes. *)
Definition call_with_time (f : VectorField) (inputs : list pyval) (t : float)
  : M array_store (list pyval) :=
  body f inputs (VFloat t).

(** [f(inputs)]: a call that leaves the time out needs a default for it. *)
Definition call_without_time (f : VectorField) (inputs : list pyval)
  : M array_store (list pyval) :=
  match time_default f with
  | Some d => body f inputs (VFloat d)
  | None => raise TypeError
  end.

(** The vector field on a state of numbers, as a solver evaluates it: no
    array is involved, the store is empty and stays so. *)
Definition eval_on_state (f : VectorField) (y : list float) (t : float) : outcome (list float) :=
  match call_with_time f (map VFloat y) t ∅ with
  | (Return vs, _) =>
      if forallb (fun v => match v with VFloat _ => true | VArray _ => false end) vs
      then Return (omap (fun v => match v with VFloat x => Some x | VArray _ => None end) vs)
      else Raise TypeError
  | (Raise e, _) => Raise e
  end.

(** The invariant of a vector field of [n] variables: on every state of
    length [n] it returns a derivative of length [n]. *)
Definition vector_field_of_size (f : VectorField) (n : nat) : Prop :=
  forall (y : list float) (t : float), length y = n ->
    exists d, eval_on_state f y t = Return d /\ length d = n.

(** ** The vector field of the script: dX_dt *)

Definition np_pow2 (v : pyval) : M array_store pyval := np_binop PrimFloat.mul v v.

Set Warnings "-inexact-float".
Definition dX_dt_body (inputs : list pyval) (t : pyval) : M array_store (list pyval) :=
  X <- lift_outcome (py_index inputs 0) ;;
  Y <- lift_outcome (py_index inputs 1) ;;
  (* dX_dt = 1 + 0.02* X**2 *Y - 2*X - 0.04*X *)
  x2 <- np_pow2 X ;;
  a <- np_binop PrimFloat.mul (VFloat 0.02) x2 ;;
  b <- np_binop PrimFloat.mul a Y ;;
  c <- np_binop PrimFloat.add (VFloat 1) b ;;
  d <- np_binop PrimFloat.mul (VFloat 2) X ;;
  e <- np_binop PrimFloat.sub c d ;;
  g <- np_binop PrimFloat.mul (VFloat 0.04) X ;;
  dX <- np_binop PrimFloat.sub e g ;;
  (* dY_dt = 2*X - 0.02* X**2 *Y *)
  h <- np_binop PrimFloat.mul (VFloat 2) X ;;
  x2' <- np_pow2 X ;;
  a' <- np_binop PrimFloat.mul (VFloat 0.02) x2' ;;
  b' <- np_binop PrimFloat.mul a' Y ;;
  dY <- np_binop PrimFloat.sub h b' ;;
  ret [dX; dY].
Set Warnings "+inexact-float".

Definition dX_dt : VectorField := mk_VectorField (Some 0%float) dX_dt_body.

(** ** numpy: linspace, meshgrid, and the normalisation of the field *)

(** [arange(start, start + len)]: the ints from [start] on. *)
Fixpoint arange (start : Z) (len : nat) : list Z :=
  match len with
  | O => []
  | S k => start :: arange (Z.succ start) k
  end.

(** Sample [i] of [linspace(start, stop, num)] for [num > 1] and
    [div = num - 1], before the last sample is overwritten:
    [i * step + start] with [step = (stop - start) / div]; when the step
    rounds to zero numpy computes [(i / div) * (stop - start) + start]. *)
Definition linspace_sample (start stop : float) (div : Z) (i : Z) : float :=
  let delta := PrimFloat.sub stop start in
  let step := PrimFloat.div delta (float_of_Z div) in
  let y := if eq_zero step
           then PrimFloat.mul (PrimFloat.div (float_of_Z i) (float_of_Z div)) delta
           else PrimFloat.mul (float_of_Z i) step in
  PrimFloat.add y start.

(** [linspace(start, stop, num)] with the end point included: [num] samples,
    the last of which is [stop] itself.  A negative [num] is a ValueError. *)
Definition linspace (start stop : float) (num : Z) : outcome (list float) :=
  if (num <? 0)%Z then Raise ValueError
  else if (num =? 0)%Z then Return []
  else if (num =? 1)%Z
  then Return [PrimFloat.add (PrimFloat.mul 0%float (PrimFloat.sub stop start)) start]
  else Return (map (linspace_sample start stop (num - 1)) (arange 0 (Z.to_nat (num - 1)))
               ++ [stop]).

(** [meshgrid(x, y)]: two new arrays of shape (len y, len x); row [i] of the
    first is [x], row [i] of the second is [len x] copies of [y[i]]. *)
Definition meshgrid (x y : list float) : ndarray * ndarray :=
  let shp := (length y, length x) in
  (mk_ndarray shp (map (fun _ => x) y),
   mk_ndarray shp (map (fun yi => map (fun _ => yi) x) y)).

(** numpy's [hypot] is a library function on float64. *)
Class Numpy : Type := {
  hypot : float -> float -> float
}.

(** What [M[M == 0] = 1.] leaves in the place of one element. *)
Definition replace_zero (m : float) : float := if eq_zero m then 1%float else m.

(** [M[M == 0] = 1.]: in place on an array; a numpy scalar supports no item
    assignment. *)
Definition mask_zeros (m : pyval) : M array_store unit :=
  fun s =>
    match m with
    | VFloat _ => (Raise TypeError, s)
    | VArray lm =>
        match s !! lm with
        | Some a => (Return tt, <[lm := map_cells replace_zero a]> s)
        | None => (Raise TypeError, s)
        end
    end.

(** [D /= M]: when [D] is an array it is divided in place, and every other
    name of that array sees the quotient; when [D] is a number the name is
    bound to the new array [D / M]. *)
Definition idiv (d m : pyval) : M array_store pyval :=
  fun s =>
    match d, m with
    | VArray ld, VArray lm =>
        match s !! ld, s !! lm with
        | Some a, Some b =>
            if shape_eqb (shape a) (shape b)
            then (Return d, <[ld := zip_cells PrimFloat.div a b]> s)
            else (Raise ValueError, s)
        | _, _ => (Raise TypeError, s)
        end
    | VArray ld, VFloat y =>
        match s !! ld with
        | Some a => (Return d, <[ld := map_cells (fun x => PrimFloat.div x y) a]> s)
        | None => (Raise TypeError, s)
        end
    | VFloat _, _ => np_binop PrimFloat.div d m s
    end.

(** [DX, DY = ...]: the right-hand side must hold exactly two values. *)
Definition unpack2 {S A} (vs : list A) : M S (A * A) :=
  match vs with
  | [a; b] => ret (a, b)
  | _ => raise ValueError
  end.

Definition read_array (v : pyval) : M array_store ndarray :=
  fun s =>
    match v with
    | VArray l => match s !! l with
                  | Some a => (Return a, s)
                  | None => (Raise TypeError, s)
                  end
    | VFloat _ => (Raise TypeError, s)
    end.

(** What [quiver] is given: the contents, at the time of the call, of the
    five arrays [X, Y, DX, DY, M]. *)
Record Field : Type := mk_Field {
  grid_x : ndarray;
  grid_y : ndarray;
  field_dx : ndarray;
  field_dy : ndarray;
  field_norm : ndarray
}.

(** Lines 87 to 90 of [trajectories]: the two axes and the grid over them. *)
Definition make_grid (xmax ymax : float) (samplingPoints : Z) : M array_store (pyval * pyval) :=
  x <- lift_outcome (linspace 0%float xmax samplingPoints) ;;
  y <- lift_outcome (linspace 0%float ymax samplingPoints) ;;
  X <- (fun s => let '(l, s') := alloc_array (fst (meshgrid x y)) s in (Return (VArray l), s')) ;;
  Y <- (fun s => let '(l, s') := alloc_array (snd (meshgrid x y)) s in (Return (VArray l), s')) ;;
  ret (X, Y).

(** Lines 92 to 95: the norm of the derivative, with 1 in the place of every
    zero, and the two divisions in place. *)
Definition normalize `{Numpy} (DX DY : pyval) : M array_store (pyval * pyval * pyval) :=
  m <- np_binop hypot DX DY ;;
  mask_zeros m ;;;
  DX' <- idiv DX m ;;
  DY' <- idiv DY m ;;
  ret (DX', DY', m).

(** Lines 91 to 95: the derivative on the grid, normalised.  The result
    names the five objects that [quiver] is called with. *)
Definition field_on_grid `{Numpy} (f : VectorField) (X Y : pyval)
  : M array_store (pyval * pyval * pyval * pyval * pyval) :=
  out <- call_without_time f [X; Y] ;;
  D <- unpack2 out ;;
  N <- normalize (fst D) (snd D) ;;
  ret (X, Y, fst (fst N), snd (fst N), snd N).

(** Lines 87 to 95 together. *)
Definition direction_field `{Numpy} (f : VectorField) (xmax ymax : float) (samplingPoints : Z)
  : M array_store (pyval * pyval * pyval * pyval * pyval) :=
  g <- make_grid xmax ymax samplingPoints ;;
  field_on_grid f (fst g) (snd g).

Definition read_field (q : pyval * pyval * pyval * pyval * pyval) : M array_store Field :=
  let '(X, Y, DX, DY, m) := q in
  ax <- read_array X ;;
  ay <- read_array Y ;;
  adx <- read_array DX ;;
  ady <- read_array DY ;;
  am <- read_array m ;;
  ret (mk_Field ax ay adx ady am).

(** ** pylab: the figure as the list of the calls made on it *)

Inductive Label : Type :=
| LabelText (s : string)
| LabelInitialConditions (a b : float).

Inductive PlotCmd : Type :=
| Figure
| Plot (xs ys : list float) (lw : option float) (label : Label)
| Title (s : string)
| XLabel (s : string)
| YLabel (s : string)
| Legend
| Grid
| Show
| SetYMin (v : float)
| SetXMin (v : float)
| XLim (lo hi : float)
| YLim (lo hi : float)
| Quiver (fld : Field).

(** The upper axis limits pylab reports are its own: a function of what has
    been drawn so far. *)
Class Pylab : Type := {
  axis_top : list PlotCmd -> float;
  axis_right : list PlotCmd -> float
}.

(** ** scipy: the integrator

    [odeint(func, y0, t)] works on copies of [y0] and [t].  It hands back the
    table of the solution, or raises; a failure of the integration itself
    is a warning beside a table that is returned all the same. *)
Record odeint_reply : Type := mk_reply {
  reply_value : outcome ndarray;
  reply_warnings : list string
}.

Class Integrator : Type := {
  solver_state : Type;
  odeint : VectorField -> list float -> list float -> solver_state -> odeint_reply * solver_state
}.

(** ** The simulator object and the world it runs in *)

(** The instance attributes [__systemFunction] and [__systemSize]. *)
Record ODESystemSimulator : Type := mk_ODESystemSimulator {
  systemFunction : VectorField;
  systemSize : Z
}.

(** Operands of [+] in the message of [getOutput]. *)
Inductive msgval : Type :=
| MStr (s : string)
| MList (xs : list float)
| MInt (z : Z).

Definition py_add (a b : msgval) : outcome msgval :=
  match a, b with
  | MStr s1, MStr s2 => Return (MStr (s1 +:+ s2))
  | MList l1, MList l2 => Return (MList (l1 ++ l2))
  | MInt z1, MInt z2 => Return (MInt (z1 + z2))
  | _, _ => Raise TypeError
  end.

Section Driver.
Context {integ : Integrator} {np : Numpy} {plt : Pylab}.

Record World : Type := mk_World {
  objects : gmap loc ODESystemSimulator;
  lists : gmap loc (list float);
  arrays : array_store;
  stdout : list msgval;
  warnings : list string;
  figure : list PlotCmd;
  solver : solver_state
}.

Definition set_objects (o : gmap loc ODESystemSimulator) (w : World) : World :=
  mk_World o (lists w) (arrays w) (stdout w) (warnings w) (figure w) (solver w).
Definition set_lists (l : gmap loc (list float)) (w : World) : World :=
  mk_World (objects w) l (arrays w) (stdout w) (warnings w) (figure w) (solver w).
Definition set_arrays (a : array_store) (w : World) : World :=
  mk_World (objects w) (lists w) a (stdout w) (warnings w) (figure w) (solver w).
Definition set_stdout (o : list msgval) (w : World) : World :=
  mk_World (objects w) (lists w) (arrays w) o (warnings w) (figure w) (solver w).
Definition set_warnings (x : list string) (w : World) : World :=
  mk_World (objects w) (lists w) (arrays w) (stdout w) x (figure w) (solver w).
Definition set_figure (f : list PlotCmd) (w : World) : World :=
  mk_World (objects w) (lists w) (arrays w) (stdout w) (warnings w) f (solver w).
Definition set_solver (s : solver_state) (w : World) : World :=
  mk_World (objects w) (lists w) (arrays w) (stdout w) (warnings w) (figure w) s.

(** *** Primitive actions *)

Definition new_list (xs : list float) : M World loc :=
  fun w => let l := fresh (dom (lists w)) in (Return l, set_lists (<[l := xs]> (lists w)) w).

Definition read_list (l : loc) : M World (list float) :=
  fun w => match lists w !! l with
           | Some xs => (Return xs, w)
           | None => (Raise TypeError, w)
           end.

Definition get_systemFunction (self : loc) : M World VectorField :=
  fun w => match objects w !! self with
           | Some o => (Return (systemFunction o), w)
           | None => (Raise AttributeError, w)
           end.

Definition get_systemSize (self : loc) : M World Z :=
  fun w => match objects w !! self with
           | Some o => (Return (systemSize o), w)
           | None => (Raise AttributeError, w)
           end.

Definition print (v : msgval) : M World unit :=
  fun w => (Return tt, set_stdout (stdout w ++ [v]) w).

Definition draw (c : PlotCmd) : M World unit :=
  fun w => (Return tt, set_figure (figure w ++ [c]) w).

(** A numpy computation runs on the arrays of the world. *)
Definition on_arrays {A} (m : M array_store A) : M World A :=
  fun w => let '(r, s') := m (arrays w) in (r, set_arrays s' w).

(** [integrate.odeint(f, y0, t)]: one call of the solver; its warnings are
    emitted, its value or exception is the call's. *)
Definition call_odeint (f : VectorField) (y0 ts : list float) : M World ndarray :=
  fun w => let '(r, s') := odeint f y0 ts (solver w) in
           (reply_value r, set_solver s' (set_warnings (warnings w ++ reply_warnings r) w)).

(** *** The class *)

(** [ODESystemSimulator(function, numVariables)]: a new instance holding the
    two attributes. *)
Definition init (function : VectorField) (numVariables : Z) : M World loc :=
  fun w => let self := fresh (dom (objects w)) in
           (Return self,
            set_objects (<[self := mk_ODESystemSimulator function numVariables]> (objects w)) w).

(** [getOutput(self, initialConditions, t)].  Both callers pass [t]; the
    default [t=0] of the signature is not modelled.  The elements of the two
    lists are floats: [odeint] converts what it is given to float64. *)
Definition getOutput (self initialConditions t : loc) : M World ndarray :=
  ic <- read_list initialConditions ;;
  size <- get_systemSize self ;;
  (if negb (Z.of_nat (length ic) =? size)%Z
   then m1 <- lift_outcome (py_add (MStr "Inputed ") (MList ic)) ;;
        m2 <- lift_outcome (py_add m1 (MStr " initial conditions but there is only ")) ;;
        size' <- get_systemSize self ;;
        m3 <- lift_outcome (py_add m2 (MInt size')) ;;
        print m3
   else ret tt) ;;;
  f <- get_systemFunction self ;;
  y0 <- read_list initialConditions ;;
  ts <- read_list t ;;
  call_odeint f y0 ts.

(** The plotting half of [concentrations]: lines 50 to 57. *)
Definition plot_concentrations (t : loc) (X : ndarray) (Xs : list Z) : M World unit :=
  draw Figure ;;;
  for_each Xs tt (fun Xnum _ =>
    ts <- read_list t ;;
    col <- lift_outcome (column X Xnum) ;;
    draw (Plot ts col None (LabelText ("$X_" +:+ pretty Xnum +:+ "$")))) ;;;
  draw (Title "System Concentrations over time") ;;;
  draw (XLabel "Time, $t$") ;;;
  draw (YLabel "Variable Concentrations") ;;;
  draw Legend ;;;
  draw Show.

(** [concentrations(self, endTime, Xs)]. *)
Definition concentrations (self : loc) (endTime : float) (Xs : list Z) : M World unit :=
  grid <- lift_outcome (linspace 0%float endTime 100000) ;;
  t <- new_list grid ;;
  size <- get_systemSize self ;;
  zeros <- new_list (repeat 0%float (Z.to_nat size)) ;;
  X <- getOutput self zeros t ;;
  plot_concentrations t X Xs.

Definition read_axis (limit : list PlotCmd -> float) : M World float :=
  fun w => (Return (limit (figure w)), w).

(** [trajectories(self, listInitialConditions, samplingPoints, endTime, X1, X2)].
    The outer list is given by its elements, each the name of a list. *)
Definition trajectories (self : loc) (listInitialConditions : list loc)
  (samplingPoints : Z) (endTime : float) (X1 X2 : Z) : M World unit :=
  draw Figure ;;;
  grid <- lift_outcome (linspace 0%float endTime 100000) ;;
  t <- new_list grid ;;
  lineThickness <- lift_outcome (py_float_pow 1.5%float (length listInitialConditions)) ;;
  for_each listInitialConditions lineThickness (fun initialConditions lw =>
    let lw' := PrimFloat.div lw 1.5%float in
    X <- getOutput self initialConditions t ;;
    c1 <- lift_outcome (column X X1) ;;
    c2 <- lift_outcome (column X X2) ;;
    ic <- read_list initialConditions ;;
    a <- lift_outcome (py_index ic X1) ;;
    b <- lift_outcome (py_index ic X2) ;;
    draw (Plot c1 c2 (Some lw') (LabelInitialConditions a b)) ;;;
    ret lw') ;;;
  draw (SetYMin 0%float) ;;;
  ymax <- read_axis axis_top ;;
  draw (SetXMin 0%float) ;;;
  xmax <- read_axis axis_right ;;
  g <- on_arrays (make_grid xmax ymax samplingPoints) ;;
  f <- get_systemFunction self ;;
  q <- on_arrays (field_on_grid f (fst g) (snd g)) ;;
  draw (Title "Trajectories and Directions") ;;;
  fld <- on_arrays (read_field q) ;;
  draw (Quiver fld) ;;;
  draw (XLabel ("$X_" +:+ pretty X1 +:+ "$")) ;;;
  draw (YLabel ("$X_" +:+ pretty X2 +:+ "$")) ;;;
  draw Legend ;;;
  draw Grid ;;;
  draw (XLim 0%float xmax) ;;;
  draw (YLim 0%float ymax) ;;;
  draw Show.

(** Lines 115 to 117, the script itself.  The default arguments of
    [trajectories] are made once, when the class is defined. *)
Definition script : M World unit :=
  ic1 <- new_list [0; 0]%float ;;
  ic2 <- new_list [8; 8]%float ;;
  ic3 <- new_list [4; 23]%float ;;
  system <- init dX_dt 2 ;;
  concentrations system 200%float [0%Z; 1%Z] ;;;
  trajectories system [ic1; ic2; ic3] 20 1000%float 0 1.

Definition empty_world (s : solver_state) : World := mk_World ∅ ∅ ∅ [] [] [] s.

End Driver.

(** ** Instances of the library interfaces, to run the model on *)

(** An explicit Euler method on the requested time grid.  Its state counts
    the calls made to it. *)
Definition euler_step (f : VectorField) (y : list float) (t t' : float) : outcome (list float) :=
  match eval_on_state f y t with
  | Return d =>
      if Nat.eqb (length d) (length y)
      then Return (zip_with (fun yi di => PrimFloat.add yi (PrimFloat.mul (PrimFloat.sub t' t) di)) y d)
      else Raise (SolverError 1)
  | Raise e => Raise e
  end.

Fixpoint euler_rows (f : VectorField) (y : list float) (t : float) (ts : list float)
  : outcome (list (list float)) :=
  match ts with
  | [] => Return []
  | t' :: rest =>
      match euler_step f y t t' with
      | Return y' =>
          match euler_rows f y' t' rest with
          | Return rows => Return (y' :: rows)
          | Raise e => Raise e
          end
      | Raise e => Raise e
      end
  end.

Definition euler_odeint (f : VectorField) (y0 ts : list float) (calls : nat) : odeint_reply * nat :=
  match ts with
  | [] => (mk_reply (Return (mk_ndarray (0, length y0) [])) [], S calls)
  | t0 :: rest =>
      match euler_rows f y0 t0 rest with
      | Return rows => (mk_reply (Return (mk_ndarray (length ts, length y0) (y0 :: rows))) [], S calls)
      | Raise e => (mk_reply (Raise e) [], S calls)
      end
  end.

#[local] Instance euler : Integrator := {|
  solver_state := nat;
  odeint := euler_odeint
|}.

(** An Euler method that watches its state the way LSODA watches its step
    count.  A step that would leave a state with a component that is not a
    finite number is not taken: the solver stops at the last row it reached,
    says so in a warning of the category scipy uses for every failure of
    [odeint], and returns its table all the same.  The rows it did not reach
    were never written; they hold what the memory held, [unreached] in every
    cell.  The result of [watched_rows] is the rows reached and whether they
    are all the rows asked for. *)
Fixpoint watched_rows (f : VectorField) (y : list float) (t : float) (ts : list float)
  : outcome (list (list float) * bool) :=
  match ts with
  | [] => Return ([], true)
  | t' :: rest =>
      match euler_step f y t t' with
      | Return y' =>
          if forallb PrimFloat.is_finite y'
          then match watched_rows f y' t' rest with
               | Return (rows, done) => Return (y' :: rows, done)
               | Raise e => Raise e
               end
          else Return ([], false)
      | Raise e => Raise e
      end
  end.

Definition watched_odeint (unreached : float) (f : VectorField) (y0 ts : list float) (calls : nat)
  : odeint_reply * nat :=
  match ts with
  | [] => (mk_reply (Return (mk_ndarray (0, length y0) [])) [], S calls)
  | t0 :: rest =>
      match watched_rows f y0 t0 rest with
      | Return (rows, true) =>
          (mk_reply (Return (mk_ndarray (length ts, length y0) (y0 :: rows))) [], S calls)
      | Return (rows, false) =>
          (mk_reply
             (Return (mk_ndarray (length ts, length y0)
                        (y0 :: rows ++ repeat (map (fun _ => unreached) y0)
                                         (length rest - length rows))))
             ["ODEintWarning"],
           S calls)
      | Raise e => (mk_reply (Raise e) [], S calls)
      end
  end.

#[local] Instance watched_euler (unreached : float) : Integrator := {|
  solver_state := nat;
  odeint := watched_odeint unreached
|}.

(** The vector field [def blow_up(inputs, t=0): return [inputs[0]**2]].  Its
    solution from 1 is [1/(1 - t)], which leaves every bound before the time
    1: no solver integrates it to a later time. *)
Definition blow_up : VectorField :=
  mk_VectorField (Some 0%float)
    (fun inputs _ =>
       y <- lift_outcome (py_index inputs 0) ;;
       d <- np_pow2 y ;;
       ret [d]).

(** The Euclidean norm by the textbook formula.  Where the sum of the
    squares underflows to zero although an argument is not zero, the result
    is the smallest positive float: the C library's [hypot] underflows no
    more than its arguments do. *)
Definition hypot_by_formula (x y : float) : float :=
  if eq_zero x && eq_zero y then 0%float
  else let h := PrimFloat.sqrt (PrimFloat.add (PrimFloat.mul x x) (PrimFloat.mul y y)) in
       if eq_zero h then 0x1p-1074%float else h.

#[local] Instance sqrt_hypot : Numpy := {|
  hypot := hypot_by_formula
|}.

(** The vector field
    [def shared_decay(inputs, t=0): d = -inputs[0]; return [d, d]]:
    both variables decay at the rate of the first. *)
Definition shared_decay : VectorField :=
  mk_VectorField (Some 0%float)
    (fun inputs _ =>
       X <- lift_outcome (py_index inputs 0) ;;
       d <- np_unop PrimFloat.opp X ;;
       ret [d; d]).

(** Axes that end at fixed limits. *)
#[local] Instance fixed_axes (top right : float) : Pylab := {|
  axis_top := fun _ => top;
  axis_right := fun _ => right
|}.

(** A world with one simulator for [dX_dt] with two variables (at location
    1), the initial conditions [[0, 0]] (at 1), [[8, 8]] (at 2), [[4, 23]]
    (at 3), the list [[0]] (at 4) and the time grid [[0, 1, 2]] (at 5). *)
Definition script_world {integ : Integrator} (s : solver_state) : World :=
  mk_World
    {[ 1%positive := mk_ODESystemSimulator dX_dt 2 ]}
    (<[ 1%positive := [0; 0]%float ]>
       (<[ 2%positive := [8; 8]%float ]>
          (<[ 3%positive := [4; 23]%float ]>
             (<[ 4%positive := [0%float] ]>
                {[ 5%positive := [0; 1; 2]%float ]}))))
    ∅ [] [] [] s.

Definition euler_world (calls : nat) : World (integ := euler) :=
  script_world (integ := euler) calls.

(** A world with one simulator for [blow_up] with one variable (at location
    1), the initial condition [[1]] (at 2) and the time grid
    [[0, 1, ..., 12]] (at 3). *)
Definition blow_up_world (unreached : float) : World (integ := watched_euler unreached) :=
  mk_World (integ := watched_euler unreached)
    {[ 1%positive := mk_ODESystemSimulator blow_up 1 ]}
    (<[ 2%positive := [1%float] ]>
       {[ 3%positive := map float_of_Z (arange 0 13) ]})
    ∅ [] [] [] 0%nat.



(** The world of the script with the simulator built on [shared_decay]. *)
Definition shared_decay_world : World (integ := euler) :=
  set_objects {[ 1%positive := mk_ODESystemSimulator shared_decay 2 ]} (euler_world 0%nat).

(** The derivative arrays [[0, 3], [0, 0]] (at 1) and [[0, 4], [0, 1]] (at 2). *)
Definition two_arrays : array_store :=
  <[ 1%positive := mk_ndarray (2%nat, 2%nat) [[0; 3]; [0; 0]]%float ]>
    {[ 2%positive := mk_ndarray (2%nat, 2%nat) [[0; 4]; [0; 1]]%float ]}.

(** ** What the properties below assume of the libraries

    Each is a hypothesis of the theorems that need it, and of no other. *)

(** Two numbers agree within a tolerance: they are the same float, or the
    absolute value of their difference is at most the tolerance. *)
Definition within (tol x y : float) : Prop :=
  x = y \/ PrimFloat.leb (PrimFloat.abs (PrimFloat.sub x y)) tol = true.

Section Contracts.
Context {integ : Integrator}.

(** For a vector field that maps states of the size of [y0] to derivatives
    of that size, and a grid with at least one time, the solver returns a
    table with one row per time and one column per variable. *)
Definition odeint_returns_table : Prop :=
  forall (f : VectorField) (y0 ts : list float) (s : solver_state),
    vector_field_of_size f (length y0) -> ts <> [] ->
    exists X, reply_value (fst (odeint f y0 ts s)) = Return X /\
              wf_ndarray X /\ shape X = (length ts, length y0).

(** The first row of a table the solver returns is the initial state, up to
    the tolerance. *)
Definition odeint_starts_within (tol : float) : Prop :=
  forall (f : VectorField) (y0 ts : list float) (s : solver_state) (X : ndarray),
    reply_value (fst (odeint f y0 ts s)) = Return X -> ts <> [] ->
    exists row, cells X !! 0%nat = Some row /\ Forall2 (within tol) row y0.

(** The reply of the solver is a function of the vector field, the initial
    state and the grid: nothing the solver remembers changes it. *)
Definition deterministic_integrator : Prop :=
  forall (f : VectorField) (y0 ts : list float) (s1 s2 : solver_state),
    fst (odeint f y0 ts s1) = fst (odeint f y0 ts s2).

End Contracts.

(** The norm is zero at the zero vector and nowhere else. *)
Definition hypot_is_zero_at_zero_only {np : Numpy} : Prop :=
  forall x y : float, eq_zero (hypot x y) = eq_zero x && eq_zero y.

(** ** Notions used in the statements *)

Section Notions.
Context {integ : Integrator}.

(** A computation preserves the objects when it ends with every simulator
    as it was and every list that existed as it was; it may have made new
    lists. *)
Definition preserves {A} (m : M World A) : Prop :=
  forall w : World,
    objects (snd (m w)) = objects w /\ lists w ⊆ lists (snd (m w)).


End Notions.

(** A float in the form of the IEEE specification is finite when it is a
    zero or a number, not an infinity and not a NaN. *)
Definition is_finite_SF (x : spec_float) : bool :=
  match x with
  | S754_zero _ | S754_finite _ _ _ => true
  | S754_infinity _ | S754_nan => false
  end.

(** ** The derivative at a point, and arrays read as grids of numbers *)

(** The two formulas of [dX_dt] on two numbers, operation by operation as
    Python evaluates them. *)
Set Warnings "-inexact-float".
Definition dX_dt_point (x y : float) : float * float :=
  (PrimFloat.sub
     (PrimFloat.sub
        (PrimFloat.add 1%float
           (PrimFloat.mul (PrimFloat.mul 0.02%float (PrimFloat.mul x x)) y))
        (PrimFloat.mul 2%float x))
     (PrimFloat.mul 0.04%float x),
   PrimFloat.sub (PrimFloat.mul 2%float x)
     (PrimFloat.mul (PrimFloat.mul 0.02%float (PrimFloat.mul x x)) y)).
Set Warnings "+inexact-float".

(** A numpy value read as a grid of shape [shp]: a number is the grid that
    holds it everywhere; a reference is the array it names, which has the
    shape and holds [g i j] in row [i] and column [j]. *)
Definition denotes (s : array_store) (shp : nat * nat) (v : pyval)
    (g : nat -> nat -> float) : Prop :=
  match v with
  | VFloat x => forall i j : nat, g i j = x
  | VArray l =>
      exists a : ndarray,
        s !! l = Some a /\ shape a = shp /\
        forall i j : nat, (i < fst shp)%nat -> (j < snd shp)%nat -> cell a i j = Some (g i j)
  end.

Definition is_array (v : pyval) : bool :=
  match v with VArray _ => true | VFloat _ => false end.

(** A reference that names nothing in the store. *)
Definition unused (s : array_store) (v : pyval) : Prop :=
  match v with VArray l => s !! l = None | VFloat _ => True end.

(** Column [k] of a table, for [k] within [-n, n), [n] the number of columns. *)
Definition column_in_range (a : ndarray) (k : Z) : bool :=
  ((- Z.of_nat (snd (shape a)) <=? k)%Z && (k <? Z.of_nat (snd (shape a)))%Z)%bool.

Definition column_values (a : ndarray) (k : Z) : list float :=
  map (fun row => default 0%float
                    (row !! Z.to_nat (if (k <? 0)%Z then (k + Z.of_nat (snd (shape a)))%Z else k)))
      (cells a).

(** The grid of numbers an array holds (0 outside of it). *)
Definition grid_of (a : ndarray) (i j : nat) : float := default 0%float (cell a i j).

(** ** The curves of concentrations *)

(** The curve that [concentrations] draws for the variable [k]: column [k] of
    the table against the time grid, dashed, labelled [$X_k$]. *)
Definition curve (grid : list float) (X : ndarray) (k : Z) : PlotCmd :=
  Plot grid (column_values X k) None (LabelText ("$X_" +:+ pretty k +:+ "$")).

Section Loops.
Context {integ : Integrator}.

(** The body of the loop of [concentrations], lines 51 and 52. *)
Definition plot_step (t : loc) (X : ndarray) (Xnum : Z) (_ : unit) : M World unit :=
  bind (read_list t) (fun ts =>
  bind (lift_outcome (column X Xnum)) (fun col =>
  draw (Plot ts col None (LabelText ("$X_" +:+ pretty Xnum +:+ "$"))))).

End Loops.

(** ** The loop of trajectories *)

Section TrajectoryLoop.
Context {integ : Integrator}.

(** The body of the loop of [trajectories], lines 79 to 81, for the line
    thickness [lw] it is entered with. *)
Definition trajectory_step (self t : loc) (X1 X2 : Z) (initialConditions : loc) (lw : float)
  : M World float :=
  bind (getOutput self initialConditions t) (fun X =>
  bind (lift_outcome (column X X1)) (fun c1 =>
  bind (lift_outcome (column X X2)) (fun c2 =>
  bind (read_list initialConditions) (fun ic =>
  bind (lift_outcome (py_index ic X1)) (fun a =>
  bind (lift_outcome (py_index ic X2)) (fun b =>
  bind (draw (Plot c1 c2 (Some (PrimFloat.div lw 1.5%float)) (LabelInitialConditions a b)))
       (fun _ => ret (PrimFloat.div lw 1.5%float)))))))).

(** A simulator and a list that are what they are said to be. *)
Definition holds (self : loc) (o : ODESystemSimulator) (ic : loc) (y0 : list float)
    (w : World) : Prop :=
  objects w !! self = Some o /\ lists w !! ic = Some y0.

End TrajectoryLoop.

(** The world of the script with a simulator of size -1. *)
Definition negative_size_world : World (integ := euler) :=
  set_objects {[ 1%positive := mk_ODESystemSimulator dX_dt (-1) ]} (euler_world 0%nat).

(** * Properties *)

(** ** getOutput *)

Section GetOutput.
Context {integ : Integrator}.

(** When the lengths agree the message branch is skipped, and [getOutput]
    is the call of the solver on what the two lists hold. *)
Lemma getOutput_matching_length (w : World) (self ic t : loc)
    (o : ODESystemSimulator) (y0 ts : list float) :
  objects w !! self = Some o ->
  lists w !! ic = Some y0 ->
  lists w !! t = Some ts ->
  Z.of_nat (length y0) = systemSize o ->
  getOutput self ic t w = call_odeint (systemFunction o) y0 ts w.
Proof.
  intros Hself Hic Ht Hlen.
  unfold getOutput, bind, read_list, get_systemSize, get_systemFunction.
  rewrite Hic, Hself.
  replace (Z.of_nat (length y0) =? systemSize o)%Z with true
    by (symmetry; apply Z.eqb_eq; exact Hlen).
  cbn. rewrite Hself, Hic, Ht. reflexivity.
Qed.

(** When the lengths differ the first [+] of the message has a string on
    its left and a list on its right. *)
Lemma getOutput_differing_length (w : World) (self ic t : loc)
    (o : ODESystemSimulator) (y0 : list float) :
  objects w !! self = Some o ->
  lists w !! ic = Some y0 ->
  Z.of_nat (length y0) <> systemSize o ->
  getOutput self ic t w = (Raise TypeError, w).
Proof.
  intros Hself Hic Hlen.
  unfold getOutput, bind, read_list, get_systemSize.
  rewrite Hic, Hself.
  replace (Z.of_nat (length y0) =? systemSize o)%Z with false
    by (symmetry; apply Z.eqb_neq; exact Hlen).
  reflexivity.
Qed.

(** The remaining cases: a name that holds no list, or no simulator. *)
Lemma getOutput_no_list (w : World) (self ic t : loc) :
  lists w !! ic = None -> getOutput self ic t w = (Raise TypeError, w).
Proof.
  intros Hic. unfold getOutput, bind, read_list. rewrite Hic. reflexivity.
Qed.

Lemma getOutput_no_object (w : World) (self ic t : loc) (y0 : list float) :
  lists w !! ic = Some y0 -> objects w !! self = None ->
  getOutput self ic t w = (Raise AttributeError, w).
Proof.
  intros Hic Hself. unfold getOutput, bind, read_list, get_systemSize.
  rewrite Hic, Hself. reflexivity.
Qed.

Lemma getOutput_no_grid (w : World) (self ic t : loc)
    (o : ODESystemSimulator) (y0 : list float) :
  objects w !! self = Some o ->
  lists w !! ic = Some y0 ->
  lists w !! t = None ->
  Z.of_nat (length y0) = systemSize o ->
  getOutput self ic t w = (Raise TypeError, w).
Proof.
  intros Hself Hic Ht Hlen.
  unfold getOutput, bind, read_list, get_systemSize, get_systemFunction.
  rewrite Hic, Hself.
  replace (Z.of_nat (length y0) =? systemSize o)%Z with true
    by (symmetry; apply Z.eqb_eq; exact Hlen).
  cbn. rewrite Hself, Hic, Ht. reflexivity.
Qed.

End GetOutput.

(** ** The instances meet what is assumed *)

Lemma dX_dt_of_size_2 : vector_field_of_size dX_dt 2.
Proof.
  intros y t Hy.
  destruct y as [|a [|b [|c y]]]; try discriminate.
  eexists. split; reflexivity.
Qed.

Lemma euler_step_length (f : VectorField) (y : list float) (t t' : float) :
  vector_field_of_size f (length y) ->
  exists y', euler_step f y t t' = Return y' /\ length y' = length y.
Proof.
  intros Hf. destruct (Hf y t eq_refl) as (d & Hd & Hlen).
  unfold euler_step. rewrite Hd, Hlen, Nat.eqb_refl.
  eexists. split; [reflexivity|].
  rewrite length_zip_with. lia.
Qed.

Lemma euler_rows_shape (f : VectorField) (n : nat) (ts : list float) :
  vector_field_of_size f n ->
  forall (y : list float) (t : float), length y = n ->
    exists rows, euler_rows f y t ts = Return rows /\
                 length rows = length ts /\ Forall (fun row => length row = n) rows.
Proof.
  intros Hf. induction ts as [|t' rest IH]; intros y t Hy.
  - exists []. repeat split. constructor.
  - subst n. destruct (euler_step_length f y t t' Hf) as (y' & Hstep & Hy').
    destruct (IH y' t' Hy') as (rows & Hrows & Hlen & Hall).
    exists (y' :: rows). cbn [euler_rows]. rewrite Hstep, Hrows.
    repeat split; [cbn; lia|]. constructor; assumption.
Qed.

Lemma euler_returns_table : odeint_returns_table (integ := euler).
Proof.
  intros f y0 ts s Hf Hts. destruct ts as [|t0 rest]; [contradiction|].
  destruct (euler_rows_shape f (length y0) rest Hf y0 t0 eq_refl) as (rows & Hrows & Hlen & Hall).
  exists (mk_ndarray (length (t0 :: rest), length y0) (y0 :: rows)).
  cbn [odeint euler euler_odeint]. rewrite Hrows. cbn [fst reply_value].
  repeat split; cbn; [lia|]. constructor; [reflexivity|assumption].
Qed.

Lemma within_refl (tol : float) (ys : list float) : Forall2 (within tol) ys ys.
Proof. induction ys; constructor; [left; reflexivity|assumption]. Qed.

Lemma euler_starts_within (tol : float) : odeint_starts_within (integ := euler) tol.
Proof.
  intros f y0 ts s X HX Hts. destruct ts as [|t0 rest]; [contradiction|].
  cbn [odeint euler euler_odeint] in HX.
  destruct (euler_rows f y0 t0 rest) as [rows|e]; cbn in HX; [|discriminate].
  injection HX as <-. exists y0. split; [reflexivity|apply within_refl].
Qed.

Lemma euler_deterministic : deterministic_integrator (integ := euler).
Proof.
  intros f y0 ts s1 s2. unfold odeint, euler, euler_odeint.
  destruct ts as [|t0 rest]; [reflexivity|].
  destruct (euler_rows f y0 t0 rest); reflexivity.
Qed.

(** ** What getOutput returns *)

Section GetOutputClaims.
Context {integ : Integrator}.

(** C1: for a simulator of a vector field [f] and size [N], initial
    conditions of length [N] and a time grid that is not empty, [getOutput]
    returns a table with [len(times)] rows and [N] columns; the solver is
    assumed to return a table of that shape for a vector field that maps
    states of length [N] to derivatives of length [N]. *)
Theorem getOutput_shape (w : World) (self ic t : loc) (f : VectorField) (N : Z)
    (y0 ts : list float) :
  odeint_returns_table ->
  vector_field_of_size f (length y0) ->
  objects w !! self = Some (mk_ODESystemSimulator f N) ->
  lists w !! ic = Some y0 ->
  lists w !! t = Some ts ->
  Z.of_nat (length y0) = N ->
  ts <> [] ->
  exists (X : ndarray) (w' : World),
    getOutput self ic t w = (Return X, w') /\
    shape X = (length ts, Z.to_nat N) /\
    length (cells X) = length ts /\
    Forall (fun row => length row = Z.to_nat N) (cells X).
Proof.
  intros Hode Hf Hself Hic Ht Hlen Hts.
  destruct (Hode f y0 ts (solver w) Hf Hts) as (X & HX & [Hrows Hcols] & Hshape).
  rewrite (getOutput_matching_length w self ic t _ y0 ts Hself Hic Ht Hlen).
  unfold call_odeint. cbn [systemFunction].
  destruct (odeint f y0 ts (solver w)) as [r s'] eqn:Hr. cbn [fst] in HX.
  exists X. eexists. rewrite HX. split; [reflexivity|].
  assert (Z.to_nat N = length y0) as -> by lia.
  rewrite Hshape in Hrows, Hcols. cbn [fst snd] in Hrows, Hcols.
  repeat split; assumption.
Qed.

(** C5: two calls of [getOutput] on the same simulator, the same initial
    conditions and the same time grid end alike (the same table, or the same
    exception) whatever else differs between the two worlds, when the reply
    of the integrator does not depend on its own state. *)
Theorem getOutput_deterministic (w1 w2 : World) (self ic t : loc) :
  deterministic_integrator ->
  objects w1 !! self = objects w2 !! self ->
  lists w1 !! ic = lists w2 !! ic ->
  lists w1 !! t = lists w2 !! t ->
  fst (getOutput self ic t w1) = fst (getOutput self ic t w2).
Proof.
  intros Hdet Hself Hic Ht.
  destruct (lists w1 !! ic) as [y0|] eqn:Hic1; symmetry in Hic.
  2: { rewrite !getOutput_no_list by assumption. reflexivity. }
  destruct (objects w1 !! self) as [o|] eqn:Hself1; symmetry in Hself.
  2: { rewrite !(getOutput_no_object _ _ _ _ y0) by assumption. reflexivity. }
  destruct (Z.eq_dec (Z.of_nat (length y0)) (systemSize o)) as [Hlen|Hlen].
  2: { rewrite !(getOutput_differing_length _ _ _ _ o y0) by assumption. reflexivity. }
  destruct (lists w1 !! t) as [ts|] eqn:Ht1; symmetry in Ht.
  2: { rewrite !(getOutput_no_grid _ _ _ _ o y0) by assumption. reflexivity. }
  rewrite !(getOutput_matching_length _ _ _ _ o y0 ts) by assumption.
  unfold call_odeint.
  pose proof (Hdet (systemFunction o) y0 ts (solver w1) (solver w2)) as Heq.
  destruct (odeint (systemFunction o) y0 ts (solver w1)) as [r1 s1].
  destruct (odeint (systemFunction o) y0 ts (solver w2)) as [r2 s2].
  cbn in Heq |- *. congruence.
Qed.

(** C6: with initial conditions of the length of the system and a time grid
    of one time, [getOutput] returns a table of exactly one row, and the row
    agrees with the initial conditions within the tolerance with which the
    solver reproduces its initial state. *)
Theorem getOutput_single_time (tol : float) (w : World) (self ic t : loc)
    (f : VectorField) (N : Z) (y0 : list float) (t0 : float) :
  odeint_returns_table ->
  odeint_starts_within tol ->
  vector_field_of_size f (length y0) ->
  objects w !! self = Some (mk_ODESystemSimulator f N) ->
  lists w !! ic = Some y0 ->
  lists w !! t = Some [t0] ->
  Z.of_nat (length y0) = N ->
  exists (row : list float) (w' : World),
    getOutput self ic t w = (Return (mk_ndarray (1%nat, Z.to_nat N) [row]), w') /\
    Forall2 (within tol) row y0.
Proof.
  intros Hode Hstart Hf Hself Hic Ht Hlen.
  assert ([t0] <> []) as Hts by discriminate.
  destruct (Hode f y0 [t0] (solver w) Hf Hts) as (X & HX & [Hrows _] & Hshape).
  destruct (Hstart f y0 [t0] (solver w) X HX Hts) as (row & Hrow & Hclose).
  rewrite (getOutput_matching_length w self ic t _ y0 [t0] Hself Hic Ht Hlen).
  unfold call_odeint. cbn [systemFunction].
  destruct (odeint f y0 [t0] (solver w)) as [r s'] eqn:Hr. cbn [fst] in HX.
  exists row. eexists. rewrite HX. split; [|exact Hclose].
  destruct X as [shp cs]. cbn in Hrows, Hshape, Hrow. subst shp. cbn in Hrows.
  destruct cs as [|row' [|row'' cs]]; try discriminate.
  cbn in Hrow. injection Hrow as ->.
  assert (Z.to_nat N = length y0) as -> by lia.
  reflexivity.
Qed.

(** C9: when the length of the initial conditions differs from the size of
    the system, [getOutput] ends with TypeError, raised by the [+] of a
    string and a list in the message; nothing was printed, no warning was
    issued and the solver was not called: the world is as it was. *)
Theorem getOutput_wrong_length_TypeError (w : World) (self ic t : loc)
    (o : ODESystemSimulator) (y0 : list float) :
  objects w !! self = Some o ->
  lists w !! ic = Some y0 ->
  Z.of_nat (length y0) <> systemSize o ->
  getOutput self ic t w = (Raise TypeError, w) /\
  py_add (MStr "Inputed ") (MList y0) = Raise TypeError.
Proof.
  intros Hself Hic Hlen. split; [|reflexivity].
  exact (getOutput_differing_length w self ic t o y0 Hself Hic Hlen).
Qed.

(** C7, as the code has it: with initial conditions of the length of the
    system, [getOutput] makes one call of the solver and ends with that
    call's own result, a table or an exception; the warnings of the call are
    added to those issued before, and nothing else is checked or retried. *)
Theorem getOutput_is_one_solver_call (w : World) (self ic t : loc)
    (o : ODESystemSimulator) (y0 ts : list float) :
  objects w !! self = Some o ->
  lists w !! ic = Some y0 ->
  lists w !! t = Some ts ->
  Z.of_nat (length y0) = systemSize o ->
  getOutput self ic t w =
    (reply_value (fst (odeint (systemFunction o) y0 ts (solver w))),
     set_solver (snd (odeint (systemFunction o) y0 ts (solver w)))
       (set_warnings
          (warnings w ++ reply_warnings (fst (odeint (systemFunction o) y0 ts (solver w)))) w)).
Proof.
  intros Hself Hic Ht Hlen.
  rewrite (getOutput_matching_length w self ic t o y0 ts Hself Hic Ht Hlen).
  unfold call_odeint.
  destruct (odeint (systemFunction o) y0 ts (solver w)) as [r s']. reflexivity.
Qed.

End GetOutputClaims.

(** ** getOutput on the world of the script *)

Lemma getOutput_shape_on_script :
  exists (X : ndarray) (w' : World),
    getOutput (integ := euler) 1%positive 1%positive 5%positive (euler_world 0%nat)
      = (Return X, w') /\
    shape X = (3%nat, 2%nat) /\
    length (cells X) = 3%nat /\
    Forall (fun row => length row = 2%nat) (cells X).
Proof.
  refine (getOutput_shape (euler_world 0%nat) 1%positive 1%positive 5%positive dX_dt 2
            [0%float; 0%float] [0%float; 1%float; 2%float]
            euler_returns_table dX_dt_of_size_2 _ _ _ _ _);
    [reflexivity | reflexivity | reflexivity | reflexivity | discriminate].
Defined.

Lemma getOutput_deterministic_on_script :
  fst (getOutput (integ := euler) 1%positive 2%positive 5%positive (euler_world 0%nat))
  = fst (getOutput (integ := euler) 1%positive 2%positive 5%positive (euler_world 7%nat)).
Proof.
  refine (getOutput_deterministic (euler_world 0%nat) (euler_world 7%nat)
            1%positive 2%positive 5%positive euler_deterministic _ _ _);
    reflexivity.
Defined.

Lemma getOutput_single_time_on_script :
  exists (row : list float) (w' : World),
    getOutput (integ := euler) 1%positive 3%positive 4%positive (euler_world 0%nat)
      = (Return (mk_ndarray (1%nat, 2%nat) [row]), w') /\
    Forall2 (within 0%float) row [4%float; 23%float].
Proof.
  refine (getOutput_single_time 0%float (euler_world 0%nat) 1%positive 3%positive 4%positive
            dX_dt 2 [4%float; 23%float] 0%float
            euler_returns_table (euler_starts_within 0%float) dX_dt_of_size_2 _ _ _ _);
    reflexivity.
Defined.

Lemma getOutput_wrong_length_on_script :
  getOutput (integ := euler) 1%positive 4%positive 5%positive (euler_world 0%nat)
    = (Raise TypeError, euler_world 0%nat) /\
  py_add (MStr "Inputed ") (MList [0%float]) = Raise TypeError.
Proof.
  refine (getOutput_wrong_length_TypeError (euler_world 0%nat) 1%positive 4%positive 5%positive
            (mk_ODESystemSimulator dX_dt 2) [0%float] _ _ _);
    [reflexivity | reflexivity | discriminate].
Defined.

(** C2, on the code: a simulator of two variables given the one initial
    condition [[0]] ends with TypeError, which no handler of a mismatch of
    dimensions would catch. *)
Theorem getOutput_one_condition_for_two_variables :
  fst (getOutput (integ := euler) 1%positive 4%positive 5%positive (euler_world 0%nat))
    = Raise TypeError.
Proof. reflexivity. Qed.

(** On the input of the script the watched solver reaches every row and
    warns of nothing: its table is the one of the plain Euler method. *)
Example watched_euler_on_script :
  fst (odeint (Integrator := watched_euler 0x1p-1000%float) dX_dt [4%float; 23%float]
         [0%float; 1%float; 2%float] 0%nat)
  = fst (odeint (Integrator := euler) dX_dt [4%float; 23%float] [0%float; 1%float; 2%float] 0%nat)
  /\ reply_warnings
       (fst (odeint (Integrator := watched_euler 0x1p-1000%float) dX_dt [4%float; 23%float]
               [0%float; 1%float; 2%float] 0%nat)) = [].
Proof. split; reflexivity. Qed.

(** Whatever the memory held, the watched solver stalls on [blow_up] from 1
    on the grid [[0, 1, ..., 12]]: it warns, and returns a table of thirteen
    rows, the last two never written. *)
Lemma watched_euler_stalls_on_blow_up (unreached : float) :
  exists X : ndarray,
    fst (odeint (Integrator := watched_euler unreached) blow_up [1%float]
           (map float_of_Z (arange 0 13)) 0%nat)
    = mk_reply (Return X) ["ODEintWarning"] /\
    shape X = (13%nat, 1%nat) /\
    length (cells X) = 13%nat /\
    cells X !! 0%nat = Some [1%float] /\
    cells X !! 11%nat = Some [unreached] /\
    cells X !! 12%nat = Some [unreached].
Proof. eexists. split; [vm_compute; reflexivity|]. repeat split. Qed.

(** C7, as the claim has it, fails: the solution of [blow_up] from 1 does not
    exist past the time 1, the solver stalls on the grid [[0, 1, ..., 12]]
    and warns, and [getOutput] ends with no error: it hands the caller the
    table of thirteen rows, of which the last was never computed, and leaves
    the warning as the only trace of the failure. *)
Lemma getOutput_returns_the_table_of_a_stalled_integration :
  reply_warnings
    (fst (odeint (Integrator := watched_euler 0x1p-1000%float) blow_up [1%float]
            (map float_of_Z (arange 0 13)) 0%nat)) <> [] /\
  exists (X : ndarray) (w' : World),
    getOutput (integ := watched_euler 0x1p-1000%float) 1%positive 2%positive 3%positive
      (blow_up_world 0x1p-1000%float) = (Return X, w') /\
    shape X = (13%nat, 1%nat) /\
    cells X !! 0%nat = Some [1%float] /\
    cells X !! 12%nat = Some [0x1p-1000%float] /\
    warnings w' = ["ODEintWarning"] /\
    solver w' = 1%nat.
Proof.
  split; [discriminate|].
  eexists. eexists. split; [vm_compute; reflexivity|].
  repeat split.
Qed.

Lemma getOutput_is_one_solver_call_on_blow_up :
  getOutput (integ := watched_euler 0x1p-1000%float) 1%positive 2%positive 3%positive
    (blow_up_world 0x1p-1000%float) =
    (reply_value
       (fst (odeint (Integrator := watched_euler 0x1p-1000%float) blow_up [1%float]
               (map float_of_Z (arange 0 13)) 0%nat)),
     set_solver
       (snd (odeint (Integrator := watched_euler 0x1p-1000%float) blow_up [1%float]
               (map float_of_Z (arange 0 13)) 0%nat))
       (set_warnings
          ([] ++ reply_warnings
                   (fst (odeint (Integrator := watched_euler 0x1p-1000%float) blow_up [1%float]
                           (map float_of_Z (arange 0 13)) 0%nat)))
          (blow_up_world 0x1p-1000%float))).
Proof.
  refine (getOutput_is_one_solver_call (blow_up_world 0x1p-1000%float)
            1%positive 2%positive 3%positive
            (mk_ODESystemSimulator blow_up 1) [1%float] (map float_of_Z (arange 0 13))
            _ _ _ _);
    reflexivity.
Defined.

(** ** What the operations leave untouched *)

Section Frame.
Context {integ : Integrator} {np : Numpy} {plt : Pylab}.


Lemma preserves_ret {A} (a : A) : preserves (ret a).
Proof. intros w. split; reflexivity. Qed.

Lemma preserves_raise {A} (e : exn) : preserves (@raise World A e).
Proof. intros w. split; reflexivity. Qed.

Lemma preserves_lift_outcome {A} (r : outcome A) : preserves (lift_outcome r).
Proof. intros w. split; reflexivity. Qed.

Lemma preserves_bind {A B} (m : M World A) (k : A -> M World B) :
  preserves m -> (forall a, preserves (k a)) -> preserves (bind m k).
Proof.
  intros Hm Hk w. unfold bind. specialize (Hm w).
  destruct (m w) as [[a|e] w1]; cbn [snd] in *; [|exact Hm].
  destruct Hm as [Ho Hl]. destruct (Hk a w1) as [Ho' Hl'].
  split; [congruence|]. etransitivity; eassumption.
Qed.

Lemma preserves_for_each {A B} (xs : list A) (step : A -> B -> M World B) :
  (forall x acc, preserves (step x acc)) -> forall acc, preserves (for_each xs acc step).
Proof.
  intros Hstep. induction xs as [|x rest IH]; intros acc; cbn [for_each].
  - apply preserves_ret.
  - apply preserves_bind; [apply Hstep|]. intros acc'. apply IH.
Qed.

Lemma preserves_new_list (xs : list float) : preserves (new_list xs).
Proof.
  intros w. unfold new_list. cbn. split; [reflexivity|].
  apply insert_subseteq, not_elem_of_dom, is_fresh.
Qed.

Lemma preserves_read_list (l : loc) : preserves (read_list l).
Proof. intros w. unfold read_list. destruct (lists w !! l); split; reflexivity. Qed.

Lemma preserves_get_systemSize (self : loc) : preserves (get_systemSize self).
Proof. intros w. unfold get_systemSize. destruct (objects w !! self); split; reflexivity. Qed.

Lemma preserves_get_systemFunction (self : loc) : preserves (get_systemFunction self).
Proof. intros w. unfold get_systemFunction. destruct (objects w !! self); split; reflexivity. Qed.

Lemma preserves_print (v : msgval) : preserves (print v).
Proof. intros w. split; reflexivity. Qed.

Lemma preserves_draw (c : PlotCmd) : preserves (draw c).
Proof. intros w. split; reflexivity. Qed.

Lemma preserves_read_axis (limit : list PlotCmd -> float) : preserves (read_axis limit).
Proof. intros w. split; reflexivity. Qed.

Lemma preserves_on_arrays {A} (m : M array_store A) : preserves (on_arrays m).
Proof. intros w. unfold on_arrays. destruct (m (arrays w)). split; reflexivity. Qed.

Lemma preserves_call_odeint (f : VectorField) (y0 ts : list float) :
  preserves (call_odeint f y0 ts).
Proof. intros w. unfold call_odeint. destruct (odeint f y0 ts (solver w)). split; reflexivity. Qed.

End Frame.

Create HintDb frame.
#[export] Hint Resolve preserves_ret preserves_raise preserves_lift_outcome
  preserves_new_list preserves_read_list preserves_get_systemSize
  preserves_get_systemFunction preserves_print preserves_draw preserves_read_axis
  preserves_on_arrays preserves_call_odeint : frame.

(** Walks through a computation written with [bind], [for_each] and [if]. *)
Ltac frame :=
  repeat first
    [ apply preserves_bind; [|intros]
    | apply preserves_for_each; intros
    | match goal with |- preserves (if ?b then _ else _) => destruct b end
    | solve [auto with frame] ].

Section Methods.
Context {integ : Integrator} {np : Numpy} {plt : Pylab}.

Lemma preserves_getOutput (self ic t : loc) : preserves (getOutput self ic t).
Proof. unfold getOutput. frame. Qed.

Lemma preserves_plot_concentrations (t : loc) (X : ndarray) (Xs : list Z) :
  preserves (plot_concentrations t X Xs).
Proof. unfold plot_concentrations. frame. Qed.

Lemma preserves_concentrations (self : loc) (endTime : float) (Xs : list Z) :
  preserves (concentrations self endTime Xs).
Proof.
  unfold concentrations. frame.
Qed.

Lemma preserves_trajectories (self : loc) (ics : list loc) (samplingPoints : Z)
    (endTime : float) (X1 X2 : Z) :
  preserves (trajectories self ics samplingPoints endTime X1 X2).
Proof.
  unfold trajectories. frame.
Qed.

(** [getOutput] makes no list either. *)
Lemma getOutput_lists (self ic t : loc) (w : World) :
  lists (snd (getOutput self ic t w)) = lists w.
Proof.
  unfold getOutput, bind, read_list, get_systemSize, get_systemFunction.
  destruct (lists w !! ic) as [y0|] eqn:Hic; [|reflexivity].
  destruct (objects w !! self) as [o|] eqn:Hself; [|reflexivity].
  destruct (negb (Z.of_nat (length y0) =? systemSize o)%Z); [reflexivity|].
  cbn. rewrite Hself, Hic. destruct (lists w !! t) as [ts|]; [|reflexivity].
  unfold call_odeint. destruct (odeint (systemFunction o) y0 ts (solver w)). reflexivity.
Qed.

(** C8: the two attributes are set by the constructor, on a new object, and
    by nothing else.  [getOutput], [concentrations] and [trajectories] end
    with every simulator as it was; [getOutput] ends with every list (its
    initial conditions and its time grid among them) as it was, and the two
    views, which make the lists they need, end with every list that existed
    as it was. *)
Theorem simulator_and_inputs_are_never_mutated :
  (forall (f : VectorField) (n : Z) (w : World),
     exists self : loc,
       init f n w = (Return self, set_objects (<[self := mk_ODESystemSimulator f n]> (objects w)) w) /\
       objects w !! self = None) /\
  (forall (self ic t : loc) (w : World),
     objects (snd (getOutput self ic t w)) = objects w /\
     lists (snd (getOutput self ic t w)) = lists w) /\
  (forall (self : loc) (endTime : float) (Xs : list Z) (w : World),
     objects (snd (concentrations self endTime Xs w)) = objects w /\
     lists w ⊆ lists (snd (concentrations self endTime Xs w))) /\
  (forall (self : loc) (ics : list loc) (samplingPoints : Z) (endTime : float) (X1 X2 : Z)
          (w : World),
     objects (snd (trajectories self ics samplingPoints endTime X1 X2 w)) = objects w /\
     lists w ⊆ lists (snd (trajectories self ics samplingPoints endTime X1 X2 w))).
Proof.
  split; [|split; [|split]].
  - intros f n w. exists (fresh (dom (objects w))). split; [reflexivity|].
    apply not_elem_of_dom, is_fresh.
  - intros self ic t w. split; [apply preserves_getOutput|apply getOutput_lists].
  - intros self endTime Xs w. apply preserves_concentrations.
  - intros self ics samplingPoints endTime X1 X2 w. apply preserves_trajectories.
Qed.

End Methods.

(** ** The time grid of the two views *)

Lemma length_arange (start : Z) (len : nat) : length (arange start len) = len.
Proof.
  revert start. induction len as [|k IH]; intros start; cbn; [reflexivity|].
  rewrite IH. reflexivity.
Qed.

Lemma lookup_arange (start : Z) (len i : nat) :
  (i < len)%nat -> arange start len !! i = Some (start + Z.of_nat i)%Z.
Proof.
  revert start i. induction len as [|k IH]; intros start i Hi; [lia|].
  destruct i as [|i]; cbn.
  - f_equal. lia.
  - rewrite IH by lia. f_equal. lia.
Qed.

(** Where the step does not round to zero the samples are the multiples of
    the step, counted from [start]. *)
Lemma linspace_sample_uniform (start stop : float) (div i : Z) :
  eq_zero (PrimFloat.div (PrimFloat.sub stop start) (float_of_Z div)) = false ->
  linspace_sample start stop div i =
    PrimFloat.add
      (PrimFloat.mul (float_of_Z i) (PrimFloat.div (PrimFloat.sub stop start) (float_of_Z div)))
      start.
Proof. intros Hstep. unfold linspace_sample. cbv zeta. rewrite Hstep. reflexivity. Qed.

Lemma linspace_samples (start stop : float) (num : Z) :
  (2 <= num)%Z ->
  exists grid : list float,
    linspace start stop num = Return grid /\
    Z.of_nat (length grid) = num /\
    (forall i : nat, (Z.of_nat i < num - 1)%Z ->
       grid !! i = Some (linspace_sample start stop (num - 1) (Z.of_nat i))) /\
    grid !! Z.to_nat (num - 1) = Some stop.
Proof.
  intros Hnum. unfold linspace.
  destruct (Z.ltb_spec num 0); [lia|].
  destruct (Z.eqb_spec num 0); [lia|].
  destruct (Z.eqb_spec num 1); [lia|].
  eexists. split; [reflexivity|].
  assert (length (map (linspace_sample start stop (num - 1)) (arange 0 (Z.to_nat (num - 1))))
          = Z.to_nat (num - 1)) as Hlen
    by (rewrite length_map, length_arange; reflexivity).
  split; [|split].
  - rewrite length_app, Hlen. cbn [length]. lia.
  - intros i Hi. rewrite lookup_app_l by (rewrite Hlen; lia).
    rewrite list_lookup_fmap, lookup_arange by lia. reflexivity.
  - rewrite lookup_app_r by (rewrite Hlen; lia).
    rewrite Hlen, Nat.sub_diag. reflexivity.
Qed.

(** *** Finite floats

    The first sample of the grid is [0 * step + 0]: it is 0 where the step is
    finite, and the step [(endTime - 0) / 99999] is finite where [endTime]
    is: a division by 99999 does not overflow.  The second fact is read off
    the IEEE specification of the division, [SFdiv]: the quotient of the
    mantissas is rounded by two right shifts, and the exponent it ends with
    stays below the largest one. *)

Lemma is_finite_spec (x : float) :
  PrimFloat.is_finite x = is_finite_SF (Prim2SF x).
Proof.
  unfold PrimFloat.is_finite, PrimFloat.is_nan, PrimFloat.is_infinity.
  rewrite !FloatAxioms.eqb_spec, FloatAxioms.abs_spec.
  destruct (Prim2SF x) as [s|s| |s m e]; cbn; try reflexivity.
  - destruct s; reflexivity.
  - rewrite Z.compare_refl, Pos.compare_cont_refl.
    destruct s; cbn; rewrite ?Pos.compare_cont_refl; reflexivity.
Qed.

(** Zero times a finite float, counted from zero, is zero. *)
Lemma zero_times_finite (x : float) :
  PrimFloat.is_finite x = true ->
  PrimFloat.add (PrimFloat.mul 0%float x) 0%float = 0%float.
Proof.
  rewrite is_finite_spec. intros Hx. apply Prim2SF_inj.
  rewrite FloatAxioms.add_spec, FloatAxioms.mul_spec.
  change (Prim2SF 0%float) with (S754_zero false).
  destruct (Prim2SF x) as [s|s| |s m e]; try discriminate; destruct s; reflexivity.
Qed.

(** A finite float less zero is finite. *)
Lemma finite_minus_zero (x : float) :
  PrimFloat.is_finite x = true ->
  PrimFloat.is_finite (PrimFloat.sub x 0%float) = true.
Proof.
  rewrite !is_finite_spec, FloatAxioms.sub_spec.
  change (Prim2SF 0%float) with (S754_zero false).
  destruct (Prim2SF x) as [s|s| |s m e]; try discriminate; intros _; [|reflexivity].
  destruct s; reflexivity.
Qed.

Section Rounding.
Local Open Scope Z_scope.

Lemma digits2_pos_bounds (p : positive) :
  2 ^ (Z.pos (digits2_pos p) - 1) <= Z.pos p < 2 ^ Z.pos (digits2_pos p).
Proof.
  induction p as [p IH|p IH|]; cbn [digits2_pos].
  - change (PosDef.Pos.succ (digits2_pos p)) with (Pos.succ (digits2_pos p)).
    rewrite Pos2Z.inj_succ.
    replace (Z.succ (Z.pos (digits2_pos p)) - 1) with (Z.succ (Z.pos (digits2_pos p) - 1)) by lia.
    rewrite !Z.pow_succ_r by lia. lia.
  - change (PosDef.Pos.succ (digits2_pos p)) with (Pos.succ (digits2_pos p)).
    rewrite Pos2Z.inj_succ.
    replace (Z.succ (Z.pos (digits2_pos p)) - 1) with (Z.succ (Z.pos (digits2_pos p) - 1)) by lia.
    rewrite !Z.pow_succ_r by lia. lia.
  - cbn. lia.
Qed.

Lemma Zdigits2_le (m k : Z) : 0 <= m < 2 ^ k -> 0 <= k -> Zdigits2 m <= k.
Proof.
  intros [Hm Hlt] Hk. destruct m as [|p|p]; cbn [Zdigits2]; [lia| |lia].
  destruct (digits2_pos_bounds p) as [Hlow _].
  destruct (Z.le_gt_cases (Z.pos (digits2_pos p)) k) as [|Hgt]; [assumption|exfalso].
  assert (2 ^ k <= 2 ^ (Z.pos (digits2_pos p) - 1)) by (apply Z.pow_le_mono_r; lia).
  lia.
Qed.

(** One shift to the right halves the mantissa. *)
Lemma shr_1_below (mrs : shr_record) (k : Z) :
  0 <= k -> 0 <= shr_m mrs < 2 ^ (k + 1) -> 0 <= shr_m (shr_1 mrs) < 2 ^ k.
Proof.
  intros Hk. rewrite Z.pow_add_r by lia. change (2 ^ 1) with 2.
  destruct mrs as [m r s]. cbn [shr_m].
  assert (0 < 2 ^ k) by (apply Z.pow_pos_nonneg; lia).
  destruct m as [|[p|p|]|p]; cbn; lia.
Qed.

Lemma shr_below (n : positive) : forall (mrs : shr_record) (k : Z),
  0 <= k -> 0 <= shr_m mrs < 2 ^ (k + Z.pos n) ->
  0 <= shr_m (SpecFloat.iter_pos shr_1 n mrs) < 2 ^ k.
Proof.
  induction n as [n IH|n IH|]; intros mrs k Hk Hm; cbn [SpecFloat.iter_pos].
  - apply IH; [lia|]. apply IH; [lia|]. apply shr_1_below; [lia|].
    replace (k + Z.pos n + Z.pos n + 1) with (k + Z.pos n~1) by lia. exact Hm.
  - apply IH; [lia|]. apply IH; [lia|].
    replace (k + Z.pos n + Z.pos n) with (k + Z.pos n~0) by lia. exact Hm.
  - apply shr_1_below; assumption.
Qed.

Lemma round_nearest_even_bounds (m : Z) (l : location) :
  0 <= m -> 0 <= round_nearest_even m l <= m + 1.
Proof.
  intros Hm. unfold round_nearest_even.
  destruct l as [|[| |]]; try lia. destruct (IntDef.Z.even m); lia.
Qed.

Lemma fexp_eq (e : Z) : fexp prec emax e = Z.max (e - 53) (-1074).
Proof. reflexivity. Qed.

(** The shift to the exponent of the format keeps the value below [2 ^ k]
    and the exponent below the largest one. *)
Lemma shr_fexp_below (m e : Z) (l : location) (k : Z) :
  0 <= m < 2 ^ (k - e) -> e <= 971 -> 1000 <= k <= 1024 ->
  let '(mrs, e') := shr_fexp prec emax m e l in
  0 <= shr_m mrs < 2 ^ (k - e') /\ e <= e' <= 971.
Proof.
  intros Hm He Hk. unfold shr_fexp. rewrite fexp_eq.
  assert (Zdigits2 m <= k - e) as Hd by (apply Zdigits2_le; [assumption|lia]).
  assert (0 <= Zdigits2 m) as Hd0 by (destruct m; cbn; lia).
  unfold shr.
  destruct (Z.max (Zdigits2 m + e - 53) (-1074) - e) as [|n|n] eqn:Hn.
  - destruct l as [|[| |]]; cbn [shr_record_of_loc shr_m]; (split; [assumption|lia]).
  - split; [|lia].
    apply shr_below; [lia|].
    replace (k - (e + Z.pos n) + Z.pos n) with (k - e) by lia.
    destruct l as [|[| |]]; cbn [shr_record_of_loc shr_m]; assumption.
  - destruct l as [|[| |]]; cbn [shr_record_of_loc shr_m]; (split; [assumption|lia]).
Qed.

(** A value below [2 ^ 1023] is rounded to a finite float. *)
Lemma binary_round_aux_finite (sx : bool) (m e : Z) (l : location) :
  0 <= m < 2 ^ (1023 - e) -> e <= 971 ->
  is_finite_SF (binary_round_aux prec emax sx m e l) = true.
Proof.
  intros Hm He. unfold binary_round_aux.
  pose proof (shr_fexp_below m e l 1023 Hm He ltac:(lia)) as H1.
  destruct (shr_fexp prec emax m e l) as [mrs1 e1]. destruct H1 as [Hm1 He1].
  pose proof (round_nearest_even_bounds (shr_m mrs1) (loc_of_shr_record mrs1) ltac:(lia)) as Hr.
  assert (2 ^ (1024 - e1) = 2 * 2 ^ (1023 - e1)) as Hpow
    by (replace (1024 - e1) with (Z.succ (1023 - e1)) by lia; apply Z.pow_succ_r; lia).
  pose proof (shr_fexp_below (round_nearest_even (shr_m mrs1) (loc_of_shr_record mrs1)) e1 loc_Exact
                1024 ltac:(lia) ltac:(lia) ltac:(lia)) as H2.
  destruct (shr_fexp prec emax (round_nearest_even (shr_m mrs1) (loc_of_shr_record mrs1)) e1 loc_Exact)
    as [mrs2 e2].
  destruct H2 as [Hm2 He2].
  destruct (shr_m mrs2) as [|p|p]; [reflexivity| |lia].
  change (emax - prec) with 971.
  destruct (Z.leb_spec e2 971); [reflexivity|lia].
Qed.

(** The quotient of a float by a float with a full mantissa and an exponent
    from -40 to 0 (a number from [2 ^ 12] on) is finite. *)
Lemma SFdiv_finite (sx sy : bool) (mx my : positive) (ex ey : Z) :
  bounded prec emax mx ex = true ->
  Zdigits2 (Z.pos my) = 53 -> -40 <= ey <= 0 ->
  is_finite_SF (SFdiv prec emax (S754_finite sx mx ex) (S754_finite sy my ey)) = true.
Proof.
  intros Hb Hdy Hey. unfold SFdiv, SFdiv_core_binary. rewrite Hdy. cbv zeta.
  unfold bounded, canonical_mantissa in Hb. apply andb_true_iff in Hb. destruct Hb as [Hc He].
  apply Z.eqb_eq in Hc. apply Z.leb_le in He. rewrite fexp_eq in Hc.
  change (emax - prec) with 971 in He.
  rewrite fexp_eq.
  change (Zdigits2 (Z.pos mx)) with (Z.pos (digits2_pos mx)).
  pose proof (digits2_pos_bounds mx) as [_ Hmx].
  pose proof (digits2_pos_bounds my) as [Hmy _].
  cbn [Zdigits2] in Hdy. rewrite Hdy in Hmy. change (2 ^ (53 - 1)) with 4503599627370496 in Hmy.
  set (d := Z.pos (digits2_pos mx)) in *.
  assert (0 < d) as Hd by (subst d; lia).
  set (e' := IntDef.Z.min (Z.max (d + ex - (53 + ey) - 53) (-1074)) (ex - ey)).
  assert (e' = Z.min (Z.max (d + ex - (53 + ey) - 53) (-1074)) (ex - ey)) as He' by reflexivity.
  clearbody e'.
  set (m' := match ex - ey - e' with
             | 0 => Z.pos mx
             | Z.pos _ => IntDef.Z.shiftl (Z.pos mx) (ex - ey - e')
             | Z.neg _ => 0
             end).
  assert (m' = Z.pos mx * 2 ^ (ex - ey - e')) as Hm'.
  { subst m'. destruct (ex - ey - e') as [|s|s] eqn:Hs; [cbn; lia| |lia].
    change IntDef.Z.shiftl with Z.shiftl. apply Z.shiftl_mul_pow2. lia. }
  clearbody m'.
  change IntDef.Z.div_eucl with Z.div_eucl.
  pose proof (Z.div_eucl_eq m' (Z.pos my) ltac:(lia)) as Hdiv.
  pose proof (Z.mod_pos_bound m' (Z.pos my) ltac:(lia)) as Hmod.
  unfold Z.modulo in Hmod.
  destruct (Z.div_eucl m' (Z.pos my)) as [q r].
  apply binary_round_aux_finite; [|lia].
  assert (0 < 2 ^ (ex - ey - e')) as Hp by (apply Z.pow_pos_nonneg; lia).
  assert (0 <= m') as Hm0 by (rewrite Hm'; lia).
  assert (0 <= q) as Hq0 by nia.
  split; [exact Hq0|].
  assert (m' < 2 ^ (d + (ex - ey - e'))) as Hlt.
  { rewrite Hm', Z.pow_add_r by lia. apply Z.mul_lt_mono_pos_r; assumption. }
  assert (2 ^ (d + (ex - ey - e')) <= 2 ^ (1023 - e' + 52)) as Hle
    by (apply Z.pow_le_mono_r; lia).
  assert (2 ^ (1023 - e' + 52) = 2 ^ (1023 - e') * 4503599627370496) as Hsplit
    by (rewrite Z.pow_add_r by lia; reflexivity).
  assert (q * 4503599627370496 <= q * Z.pos my) as Hqy
    by (apply Z.mul_le_mono_nonneg_l; lia).
  lia.
Qed.

End Rounding.

(** The step of the grid of [concentrations] to a finite end time is finite. *)
Lemma finite_step (stop : float) :
  PrimFloat.is_finite stop = true ->
  PrimFloat.is_finite (PrimFloat.div (PrimFloat.sub stop 0%float) 99999%float) = true.
Proof.
  rewrite !is_finite_spec, FloatAxioms.div_spec, FloatAxioms.sub_spec.
  change (Prim2SF 0%float) with (S754_zero false).
  change (Prim2SF 99999%float) with (S754_finite false 6871878954123264 (-36)).
  pose proof (FloatAxioms.Prim2SF_valid stop) as Hvalid.
  destruct (Prim2SF stop) as [s|s| |s m e]; try discriminate; intros _.
  - destruct s; reflexivity.
  - apply SFdiv_finite; [exact Hvalid|reflexivity|lia].
Qed.

(** The first sample of a grid from 0 to a finite end is 0. *)
Lemma linspace_sample_first (stop : float) :
  PrimFloat.is_finite stop = true ->
  linspace_sample 0%float stop 99999 0 = 0%float.
Proof.
  intros Hstop. unfold linspace_sample. cbv zeta.
  change (float_of_Z 99999) with 99999%float.
  change (float_of_Z 0) with 0%float.
  destruct (eq_zero (PrimFloat.div (PrimFloat.sub stop 0%float) 99999%float)).
  - change (PrimFloat.div 0%float 99999%float) with 0%float.
    apply zero_times_finite, finite_minus_zero, Hstop.
  - apply zero_times_finite, finite_step, Hstop.
Qed.

Section Concentrations.
Context {integ : Integrator}.

(** C4, as the code has it: for every number of variables [N] and every
    finite [endTime], [concentrations] builds a grid of exactly 100000
    times, the first of which is 0 and the last of which is [endTime]; the
    samples between are equally spaced, sample [i] being [i * step + 0] with
    the step [(endTime - 0) / 99999] (and [(i / 99999) * (endTime - 0) + 0]
    where the step rounds to zero); it makes the list of [N] zeros, and calls
    [getOutput] on the two; what it draws, it draws from the result of that
    call. *)
Theorem concentrations_grid_and_zero_start (w : World) (self : loc)
    (o : ODESystemSimulator) (endTime : float) (Xs : list Z) :
  objects w !! self = Some o ->
  PrimFloat.is_finite endTime = true ->
  exists (grid : list float) (t zeros : loc),
    linspace 0%float endTime 100000 = Return grid /\
    Z.of_nat (length grid) = 100000%Z /\
    grid !! 0%nat = Some 0%float /\
    (forall i : nat, (Z.of_nat i < 99999)%Z ->
       grid !! i = Some
         (PrimFloat.add
            (if PrimFloat.eqb (PrimFloat.div (PrimFloat.sub endTime 0%float) 99999%float) 0%float
             then PrimFloat.mul
                    (PrimFloat.div (PrimFloat.of_uint63 (Uint63.of_Z (Z.of_nat i))) 99999%float)
                    (PrimFloat.sub endTime 0%float)
             else PrimFloat.mul
                    (PrimFloat.of_uint63 (Uint63.of_Z (Z.of_nat i)))
                    (PrimFloat.div (PrimFloat.sub endTime 0%float) 99999%float))
            0%float)) /\
    grid !! Z.to_nat 99999 = Some endTime /\
    lists w !! t = None /\
    t <> zeros /\
    lists w !! zeros = None /\
    concentrations self endTime Xs w =
      bind (getOutput self zeros t) (fun X => plot_concentrations t X Xs)
        (set_lists (<[zeros := repeat 0%float (Z.to_nat (systemSize o))]>
                      (<[t := grid]> (lists w))) w).
Proof.
  intros Hself Hfinite.
  destruct (linspace_samples 0%float endTime 100000 ltac:(lia))
    as (grid & Hgrid & Hlen & Hsamples & Hlast).
  exists grid, (fresh (dom (lists w))),
    (fresh (dom (<[fresh (dom (lists w)) := grid]> (lists w)))).
  split; [exact Hgrid|]. split; [exact Hlen|].
  split; [rewrite (Hsamples 0%nat ltac:(lia)); f_equal; exact (linspace_sample_first endTime Hfinite)|].
  split; [intros i Hi; rewrite (Hsamples i Hi); reflexivity|].
  split; [exact Hlast|].
  pose proof (is_fresh (dom (<[fresh (dom (lists w)) := grid]> (lists w)))) as Hfresh.
  split; [apply not_elem_of_dom, is_fresh|].
  split; [intros Heq; apply Hfresh; rewrite <- Heq, dom_insert_L; set_solver|].
  split; [apply not_elem_of_dom; intros Hin; apply Hfresh; rewrite dom_insert_L; set_solver|].
  unfold concentrations. unfold bind at 1. unfold lift_outcome. rewrite Hgrid.
  unfold bind at 1. unfold new_list at 1. cbn beta iota zeta.
  unfold bind at 1. unfold get_systemSize at 1. cbn [objects set_lists].
  rewrite Hself.
  unfold bind at 1. unfold new_list at 1. cbn beta iota zeta. cbn [lists set_lists].
  reflexivity.
Qed.

End Concentrations.

Lemma concentrations_on_script :
  exists (grid : list float) (t zeros : loc),
    linspace 0%float 200%float 100000 = Return grid /\
    Z.of_nat (length grid) = 100000%Z /\
    grid !! 0%nat = Some 0%float /\
    (forall i : nat, (Z.of_nat i < 99999)%Z ->
       grid !! i = Some
         (PrimFloat.add
            (if PrimFloat.eqb (PrimFloat.div (PrimFloat.sub 200%float 0%float) 99999%float) 0%float
             then PrimFloat.mul
                    (PrimFloat.div (PrimFloat.of_uint63 (Uint63.of_Z (Z.of_nat i))) 99999%float)
                    (PrimFloat.sub 200%float 0%float)
             else PrimFloat.mul
                    (PrimFloat.of_uint63 (Uint63.of_Z (Z.of_nat i)))
                    (PrimFloat.div (PrimFloat.sub 200%float 0%float) 99999%float))
            0%float)) /\
    grid !! Z.to_nat 99999 = Some 200%float /\
    lists (euler_world 0%nat) !! t = None /\
    t <> zeros /\
    lists (euler_world 0%nat) !! zeros = None /\
    concentrations (integ := euler) 1%positive 200%float [0%Z; 1%Z] (euler_world 0%nat) =
      bind (getOutput 1%positive zeros t) (fun X => plot_concentrations t X [0%Z; 1%Z])
        (set_lists (<[zeros := repeat 0%float (Z.to_nat (systemSize (mk_ODESystemSimulator dX_dt 2)))]>
                      (<[t := grid]> (lists (euler_world 0%nat)))) (euler_world 0%nat)).
Proof.
  refine (concentrations_grid_and_zero_start (euler_world 0%nat) 1%positive
            (mk_ODESystemSimulator dX_dt 2) 200%float [0%Z; 1%Z] _ _);
    reflexivity.
Defined.

(** C4, as the claim has it, fails for an end time that is not finite: the
    step to infinity is infinite, zero times it is not a number, and the grid
    that [concentrations] hands to [getOutput] (the list it makes at the
    location 6) starts at that, not at 0. *)
Lemma concentrations_to_infinity_does_not_start_at_zero :
  (match linspace 0%float infinity 100000 with
   | Return grid => grid !! 0%nat
   | Raise _ => None
   end) = Some nan /\
  lists (snd (concentrations (integ := euler) 1%positive infinity [0%Z; 1%Z] (euler_world 0%nat)))
    !! 6%positive ≫= (.!! 0%nat) = Some nan /\
  PrimFloat.eqb nan 0%float = false.
Proof. vm_compute. repeat split. Qed.

(** ** The call of the vector field in the direction field *)



Section Trajectories.
Context {integ : Integrator} {np : Numpy} {plt : Pylab}.




End Trajectories.




(** ** The normalisation of the direction field *)

Lemma eq_zero_cases (x : float) : eq_zero x = true -> x = 0%float \/ x = (-0)%float.
Proof.
  unfold eq_zero. rewrite FloatAxioms.eqb_spec. intros H.
  rewrite <- (FloatAxioms.SF2Prim_Prim2SF x).
  destruct (Prim2SF x) as [sg|sg| |sg m e]; try (cbn in H; discriminate).
  - destruct sg; [right|left]; reflexivity.
  - destruct sg; cbn in H; discriminate.
  - destruct sg; cbn in H; discriminate.
Qed.

Lemma eq_zero_div_one (x : float) :
  eq_zero x = true -> eq_zero (PrimFloat.div x 1%float) = true.
Proof. intros H. destruct (eq_zero_cases x H) as [-> | ->]; reflexivity. Qed.

Lemma hypot_by_formula_zero_at_zero_only : hypot_is_zero_at_zero_only (np := sqrt_hypot).
Proof.
  intros x y. cbn [hypot sqrt_hypot]. unfold hypot_by_formula.
  destruct (eq_zero x && eq_zero y); [reflexivity|].
  cbv zeta.
  destruct (eq_zero (PrimFloat.sqrt (PrimFloat.add (PrimFloat.mul x x) (PrimFloat.mul y y))))
    eqn:Hh; [reflexivity|exact Hh].
Qed.

Lemma shape_eqb_refl (shp : nat * nat) : shape_eqb shp shp = true.
Proof. unfold shape_eqb. rewrite !Nat.eqb_refl. reflexivity. Qed.

Lemma cell_map_cells (op : float -> float) (a : ndarray) (i j : nat) (x : float) :
  cell a i j = Some x -> cell (map_cells op a) i j = Some (op x).
Proof.
  unfold cell, map_cells. cbn [cells]. rewrite list_lookup_fmap.
  destruct (cells a !! i) as [row|]; [|discriminate]. cbn.
  intros Hx. rewrite list_lookup_fmap, Hx. reflexivity.
Qed.

Lemma cell_zip_cells (op : float -> float -> float) (a b : ndarray) (i j : nat) (x y : float) :
  cell a i j = Some x -> cell b i j = Some y ->
  cell (zip_cells op a b) i j = Some (op x y).
Proof.
  unfold cell, zip_cells. cbn [cells]. rewrite lookup_zip_with.
  destruct (cells a !! i) as [ra|]; [|discriminate].
  destruct (cells b !! i) as [rb|]; [|discriminate]. cbn.
  intros Hx Hy. rewrite lookup_zip_with, Hx, Hy. reflexivity.
Qed.

Section Normalisation.
Context {np : Numpy}.

(** What lines 92 to 95 do to two arrays of one shape: the norm is a new
    array; the first array is divided by it in place; then the second one
    is, which is the first one, already divided, when the two names are
    names of one array. *)
Lemma normalize_arrays (s : array_store) (ldx ldy : loc) (a b : ndarray) :
  s !! ldx = Some a -> s !! ldy = Some b -> shape a = shape b ->
  let lm := fresh (dom s) in
  let m := map_cells replace_zero (zip_cells hypot a b) in
  let a' := zip_cells PrimFloat.div a m in
  let b' := zip_cells PrimFloat.div (if decide (ldy = ldx) then a' else b) m in
  normalize (VArray ldx) (VArray ldy) s =
    (Return (VArray ldx, VArray ldy, VArray lm),
     <[ldy := b']> (<[ldx := a']> (<[lm := m]> (<[lm := zip_cells hypot a b]> s)))) /\
  lm <> ldx /\ lm <> ldy.
Proof.
  intros Ha Hb Hshape lm m a' b'.
  assert (lm <> ldx) as Hmx.
  { intros Heq. apply (is_fresh (dom s)). fold lm. rewrite Heq. apply elem_of_dom. eauto. }
  assert (lm <> ldy) as Hmy.
  { intros Heq. apply (is_fresh (dom s)). fold lm. rewrite Heq. apply elem_of_dom. eauto. }
  split; [|split; assumption].
  unfold normalize, bind, np_binop. rewrite Ha, Hb, Hshape, shape_eqb_refl.
  unfold alloc_array. fold lm.
  unfold mask_zeros. rewrite lookup_insert_eq. fold m.
  unfold idiv at 1. rewrite lookup_insert_eq.
  rewrite !lookup_insert_ne by assumption. rewrite Ha.
  replace (shape m) with (shape a) by reflexivity. rewrite shape_eqb_refl. fold a'.
  unfold idiv.
  rewrite (lookup_insert_ne _ ldx lm) by congruence. rewrite lookup_insert_eq.
  unfold b'. destruct (decide (ldy = ldx)) as [->|Hne].
  - rewrite lookup_insert_eq. replace (shape a') with (shape m) by reflexivity.
    rewrite shape_eqb_refl. reflexivity.
  - rewrite !lookup_insert_ne by congruence. rewrite Hb.
    replace (shape m) with (shape b) by (symmetry; exact Hshape).
    rewrite shape_eqb_refl. reflexivity.
Qed.

End Normalisation.

Section NormalisationAtAPoint.
Context {np : Numpy}.

(** X1: where both components of the derivative are zero, the norm is
    replaced by 1 and both components stay zero.  This holds whether the two
    components are two arrays or one array under two names. *)
Theorem normalize_zero_derivative (s : array_store) (ldx ldy : loc) (a b : ndarray)
    (i j : nat) (dx dy : float) :
  hypot_is_zero_at_zero_only ->
  s !! ldx = Some a -> s !! ldy = Some b -> shape a = shape b ->
  cell a i j = Some dx -> cell b i j = Some dy ->
  eq_zero dx = true -> eq_zero dy = true ->
  exists (s' : array_store) (lm : loc) (adx ady am : ndarray) (nx ny : float),
    normalize (VArray ldx) (VArray ldy) s = (Return (VArray ldx, VArray ldy, VArray lm), s') /\
    s' !! ldx = Some adx /\ s' !! ldy = Some ady /\ s' !! lm = Some am /\
    cell am i j = Some 1%float /\
    cell adx i j = Some nx /\ cell ady i j = Some ny /\
    eq_zero nx = true /\ eq_zero ny = true.
Proof.
  intros Hhyp Ha Hb Hshape Hdx Hdy Zx Zy.
  destruct (normalize_arrays s ldx ldy a b Ha Hb Hshape) as (Hn & Hmx & Hmy).
  set (lm := fresh (dom s)) in *.
  set (m := map_cells replace_zero (zip_cells hypot a b)) in *.
  set (a' := zip_cells PrimFloat.div a m) in *.
  assert (cell m i j = Some 1%float) as Hm.
  { unfold m. rewrite (cell_map_cells _ _ i j (hypot dx dy))
      by (apply cell_zip_cells; assumption).
    unfold replace_zero. rewrite Hhyp, Zx, Zy. reflexivity. }
  assert (cell a' i j = Some (PrimFloat.div dx 1%float)) as Ha'
    by (apply cell_zip_cells; assumption).
  destruct (decide (ldy = ldx)) as [->|Hne].
  - assert (b = a) as -> by congruence. assert (dy = dx) as -> by congruence.
    eexists _, lm, _, _, m, _, _. split; [exact Hn|].
    split; [rewrite lookup_insert_eq; reflexivity|].
    split; [rewrite lookup_insert_eq; reflexivity|].
    split; [rewrite !lookup_insert_ne, lookup_insert_eq by congruence; reflexivity|].
    split; [exact Hm|].
    split; [apply cell_zip_cells; [exact Ha'|exact Hm]|].
    split; [apply cell_zip_cells; [exact Ha'|exact Hm]|].
    split; apply eq_zero_div_one, eq_zero_div_one, Zx.
  - eexists _, lm, _, _, m, _, _. split; [exact Hn|].
    split; [rewrite lookup_insert_ne, lookup_insert_eq by congruence; reflexivity|].
    split; [rewrite lookup_insert_eq; reflexivity|].
    split; [rewrite !lookup_insert_ne, lookup_insert_eq by congruence; reflexivity|].
    split; [exact Hm|].
    split; [exact Ha'|].
    split; [apply cell_zip_cells; [exact Hdy|exact Hm]|].
    split; apply eq_zero_div_one; assumption.
Qed.

(** X2: where a component of the derivative is not zero, and the two
    components are two arrays, each is divided by the norm of the pair. *)
Theorem normalize_nonzero_derivative (s : array_store) (ldx ldy : loc) (a b : ndarray)
    (i j : nat) (dx dy : float) :
  hypot_is_zero_at_zero_only ->
  ldx <> ldy ->
  s !! ldx = Some a -> s !! ldy = Some b -> shape a = shape b ->
  cell a i j = Some dx -> cell b i j = Some dy ->
  eq_zero dx && eq_zero dy = false ->
  exists (s' : array_store) (lm : loc) (adx ady am : ndarray),
    normalize (VArray ldx) (VArray ldy) s = (Return (VArray ldx, VArray ldy, VArray lm), s') /\
    s' !! ldx = Some adx /\ s' !! ldy = Some ady /\ s' !! lm = Some am /\
    cell am i j = Some (hypot dx dy) /\
    cell adx i j = Some (PrimFloat.div dx (hypot dx dy)) /\
    cell ady i j = Some (PrimFloat.div dy (hypot dx dy)).
Proof.
  intros Hhyp Hne Ha Hb Hshape Hdx Hdy Hnz.
  destruct (normalize_arrays s ldx ldy a b Ha Hb Hshape) as (Hn & Hmx & Hmy).
  set (lm := fresh (dom s)) in *.
  set (m := map_cells replace_zero (zip_cells hypot a b)) in *.
  assert (cell m i j = Some (hypot dx dy)) as Hm.
  { unfold m. rewrite (cell_map_cells _ _ i j (hypot dx dy))
      by (apply cell_zip_cells; assumption).
    unfold replace_zero. rewrite Hhyp, Hnz. reflexivity. }
  destruct (decide (ldy = ldx)) as [Heq|_]; [congruence|].
  eexists _, lm, _, _, m. split; [exact Hn|].
  split; [rewrite lookup_insert_ne, lookup_insert_eq by congruence; reflexivity|].
  split; [rewrite lookup_insert_eq; reflexivity|].
  split; [rewrite !lookup_insert_ne, lookup_insert_eq by congruence; reflexivity|].
  split; [exact Hm|].
  split; apply cell_zip_cells; assumption.
Qed.

End NormalisationAtAPoint.

(** C3, on the code: for the vector field [shared_decay], whose two
    components are one array, on the grid over [0, 3] x [0, 4] with two
    samples a side, the derivative at the point (3, 0) is (-3, -3); the array
    is divided by the norm once under each of its two names, so the arrow
    drawn there is [(-3 / m) / m] in both components, for [m] the norm of
    (-3, -3), and not [-3 / m].  [trajectories] hands these arrows to
    [quiver]. *)
Theorem normalisation_divides_a_shared_array_twice :
  (forall np : Numpy,
     exists (fld : Field) (s : array_store),
       bind (direction_field shared_decay 3%float 4%float 2) read_field ∅ = (Return fld, s) /\
       cell (grid_x fld) 0 1 = Some 3%float /\
       cell (grid_y fld) 0 1 = Some 0%float /\
       cell (field_norm fld) 0 1 = Some (replace_zero (hypot (-3)%float (-3)%float)) /\
       cell (field_dx fld) 0 1
         = Some (PrimFloat.div
                   (PrimFloat.div (-3)%float (replace_zero (hypot (-3)%float (-3)%float)))
                   (replace_zero (hypot (-3)%float (-3)%float))) /\
       cell (field_dy fld) 0 1 = cell (field_dx fld) 0 1) /\
  (exists fld : Field,
     fst (trajectories (integ := euler) (np := sqrt_hypot) (plt := fixed_axes 4 3)
            1%positive [2%positive] 2 1%float 0 1 shared_decay_world) = Return tt /\
     figure (snd (trajectories (integ := euler) (np := sqrt_hypot) (plt := fixed_axes 4 3)
                    1%positive [2%positive] 2 1%float 0 1 shared_decay_world)) !! 5%nat
       = Some (Quiver fld) /\
     cell (field_dx fld) 0 1
       = Some (PrimFloat.div
                 (PrimFloat.div (-3)%float (hypot_by_formula (-3)%float (-3)%float))
                 (hypot_by_formula (-3)%float (-3)%float)) /\
     cell (field_dy fld) 0 1 = cell (field_dx fld) 0 1) /\
  PrimFloat.eqb
    (PrimFloat.div
       (PrimFloat.div (-3)%float (hypot_by_formula (-3)%float (-3)%float))
       (hypot_by_formula (-3)%float (-3)%float))
    (PrimFloat.div (-3)%float (hypot_by_formula (-3)%float (-3)%float)) = false.
Proof.
  split; [|split; [|reflexivity]].
  - intros np. eexists. eexists. split; [vm_compute; reflexivity|].
    repeat split; reflexivity.
  - eexists. split; [vm_compute; reflexivity|].
    split; [vm_compute; reflexivity|].
    split; vm_compute; reflexivity.
Qed.

(** X3: for a vector field that returns two numbers, a constant field, the
    norm is a numpy scalar, and the assignment [M[M == 0] = 1.] raises TypeError:
    no array was made or changed. *)
Theorem normalize_two_numbers_TypeError `{Numpy} (x y : float) (s : array_store) :
  normalize (VFloat x) (VFloat y) s = (Raise TypeError, s).
Proof. reflexivity. Qed.

(** ** The normalisation on two arrays of the world of the script *)


Lemma normalize_zero_derivative_on_two_arrays :
  exists (s' : array_store) (lm : loc) (adx ady am : ndarray) (nx ny : float),
    normalize (H := sqrt_hypot) (VArray 1%positive) (VArray 2%positive) two_arrays
      = (Return (VArray 1%positive, VArray 2%positive, VArray lm), s') /\
    s' !! 1%positive = Some adx /\ s' !! 2%positive = Some ady /\ s' !! lm = Some am /\
    cell am 0 0 = Some 1%float /\
    cell adx 0 0 = Some nx /\ cell ady 0 0 = Some ny /\
    eq_zero nx = true /\ eq_zero ny = true.
Proof.
  refine (normalize_zero_derivative (np := sqrt_hypot) two_arrays 1%positive 2%positive
            (mk_ndarray (2%nat, 2%nat) [[0; 3]; [0; 0]]%float)
            (mk_ndarray (2%nat, 2%nat) [[0; 4]; [0; 1]]%float)
            0 0 0%float 0%float hypot_by_formula_zero_at_zero_only _ _ _ _ _ _ _);
    reflexivity.
Defined.

Lemma normalize_nonzero_derivative_on_two_arrays :
  exists (s' : array_store) (lm : loc) (adx ady am : ndarray),
    normalize (H := sqrt_hypot) (VArray 1%positive) (VArray 2%positive) two_arrays
      = (Return (VArray 1%positive, VArray 2%positive, VArray lm), s') /\
    s' !! 1%positive = Some adx /\ s' !! 2%positive = Some ady /\ s' !! lm = Some am /\
    cell am 0 1 = Some (hypot (Numpy := sqrt_hypot) 3%float 4%float) /\
    cell adx 0 1 = Some (PrimFloat.div 3%float (hypot (Numpy := sqrt_hypot) 3%float 4%float)) /\
    cell ady 0 1 = Some (PrimFloat.div 4%float (hypot (Numpy := sqrt_hypot) 3%float 4%float)).
Proof.
  refine (normalize_nonzero_derivative (np := sqrt_hypot) two_arrays 1%positive 2%positive
            (mk_ndarray (2%nat, 2%nat) [[0; 3]; [0; 0]]%float)
            (mk_ndarray (2%nat, 2%nat) [[0; 4]; [0; 1]]%float)
            0 1 3%float 4%float hypot_by_formula_zero_at_zero_only _ _ _ _ _ _ _);
    [discriminate | reflexivity ..].
Defined.

(** ** The script, run *)

(** With the Euler integrator the script runs to its end: the three
    initial conditions have the length of the system, and [dX_dt] has a
    default for the time and returns two new arrays. *)
Example script_runs :
  fst (script (integ := euler) (np := sqrt_hypot) (plt := fixed_axes 30 30)
         (empty_world (integ := euler) 0%nat))
    = Return tt.
Proof. vm_compute. reflexivity. Qed.

(** The first time of the grid of [concentrations(200)] is 0. *)
Example first_time_of_the_script : linspace_sample 0%float 200%float 99999 0 = 0%float.
Proof. reflexivity. Qed.

(** * Further properties of the code *)

(** ** dX_dt *)

Lemma py_index_first {A} (a : A) (l : list A) : py_index (a :: l) 0 = Return a.
Proof.
  unfold py_index. cbn [length]. rewrite Nat2Z.inj_succ.
  change (0 <? 0)%Z with false. cbv iota.
  destruct (Z.ltb_spec 0 (Z.succ (Z.of_nat (length l)))); [reflexivity|lia].
Qed.

Lemma py_index_second {A} (a b : A) (l : list A) : py_index (a :: b :: l) 1 = Return b.
Proof.
  unfold py_index. cbn [length]. rewrite !Nat2Z.inj_succ.
  change (1 <? 0)%Z with false. cbv iota.
  destruct (Z.ltb_spec 1 (Z.succ (Z.succ (Z.of_nat (length l))))); [reflexivity|lia].
Qed.

(** On two numbers [dX_dt] computes the two formulas, whatever the time,
    and touches no array. *)
Lemma dX_dt_on_numbers (x y : float) (more : list pyval) (t : pyval) (s : array_store) :
  dX_dt_body (VFloat x :: VFloat y :: more) t s
  = (Return [VFloat (fst (dX_dt_point x y)); VFloat (snd (dX_dt_point x y))], s).
Proof.
  unfold dX_dt_body, bind, lift_outcome.
  rewrite py_index_first, py_index_second. reflexivity.
Qed.

Lemma dX_dt_needs_two_inputs (inputs : list pyval) (t : pyval) (s : array_store) :
  (length inputs < 2)%nat -> dX_dt_body inputs t s = (Raise IndexError, s).
Proof.
  intros Hlen. destruct inputs as [|u [|v more]]; [reflexivity|reflexivity|cbn in Hlen; lia].
Qed.

(** X4: [dX_dt] is a vector field of two variables and of no other number:
    it reads [inputs[0]] and [inputs[1]], so a shorter state is an
    IndexError, and it returns two derivatives whatever the length of a
    longer one. *)
Theorem dX_dt_has_size_two_only (n : nat) : vector_field_of_size dX_dt n <-> n = 2%nat.
Proof.
  split.
  - intros Hf. destruct (Hf (repeat 0%float n) 0%float (repeat_length _ _)) as (d & Hd & Hlen).
    unfold eval_on_state, call_with_time in Hd. cbn [body dX_dt] in Hd.
    destruct n as [|[|n]].
    + cbn in Hd. discriminate.
    + cbn in Hd. discriminate.
    + cbn [repeat map] in Hd. rewrite dX_dt_on_numbers in Hd. cbn in Hd.
      injection Hd as <-. cbn in Hlen. lia.
  - intros ->. exact dX_dt_of_size_2.
Qed.

(** ** numpy operations on grids *)

Lemma denotes_weaken (s s' : array_store) (shp : nat * nat) (v : pyval)
    (g : nat -> nat -> float) :
  s ⊆ s' -> denotes s shp v g -> denotes s' shp v g.
Proof.
  intros Hsub. destruct v as [x|l]; cbn; [exact (fun H => H)|].
  intros (a & Ha & Hshape & Hcells). exists a.
  split; [exact (lookup_weaken _ _ _ _ Ha Hsub)|]. split; assumption.
Qed.

Lemma alloc_array_fresh (a : ndarray) (s : array_store) :
  s !! fst (alloc_array a s) = None /\
  snd (alloc_array a s) = <[fst (alloc_array a s) := a]> s /\
  s ⊆ snd (alloc_array a s).
Proof.
  unfold alloc_array. cbn [fst snd].
  assert (s !! fresh (dom s) = None) as Hfresh by apply not_elem_of_dom, is_fresh.
  split; [exact Hfresh|]. split; [reflexivity|]. apply insert_subseteq, Hfresh.
Qed.

(** A binary operation on two values read as grids of one shape gives the
    grid of the results.  The result is an array when an operand is one, and
    then it is a new array; every array of the store is as it was. *)
Lemma np_binop_denotes (op : float -> float -> float) (u v : pyval) (s : array_store)
    (shp : nat * nat) (gu gv : nat -> nat -> float) :
  denotes s shp u gu -> denotes s shp v gv ->
  exists (r : pyval) (s' : array_store),
    np_binop op u v s = (Return r, s') /\
    s ⊆ s' /\
    denotes s' shp r (fun i j => op (gu i j) (gv i j)) /\
    is_array r = is_array u || is_array v /\
    unused s r.
Proof.
  intros Hu Hv. destruct u as [x|la], v as [y|lb]; cbn [np_binop].
  - exists (VFloat (op x y)), s. cbn in Hu, Hv |- *.
    repeat split; try reflexivity. intros i j. rewrite Hu, Hv. reflexivity.
  - destruct Hv as (b & Hb & Hshape & Hcells). rewrite Hb.
    destruct (alloc_array_fresh (map_cells (op x) b) s) as (Hfresh & Hs' & Hsub).
    destruct (alloc_array (map_cells (op x) b) s) as [l s'] eqn:Halloc. cbn [fst snd] in *.
    exists (VArray l), s'. repeat split; try assumption; try reflexivity.
    cbn. exists (map_cells (op x) b). subst s'. rewrite lookup_insert_eq.
    repeat split; [exact Hshape|]. intros i j Hi Hj. cbn in Hu. rewrite Hu.
    apply cell_map_cells, Hcells; assumption.
  - destruct Hu as (a & Ha & Hshape & Hcells). rewrite Ha.
    destruct (alloc_array_fresh (map_cells (fun x => op x y) a) s) as (Hfresh & Hs' & Hsub).
    destruct (alloc_array (map_cells (fun x => op x y) a) s) as [l s'] eqn:Halloc.
    cbn [fst snd] in *.
    exists (VArray l), s'. repeat split; try assumption; try reflexivity.
    cbn. exists (map_cells (fun x => op x y) a). subst s'. rewrite lookup_insert_eq.
    repeat split; [exact Hshape|]. intros i j Hi Hj. cbn in Hv. rewrite Hv.
    apply (cell_map_cells (fun x => op x y)), Hcells; assumption.
  - destruct Hu as (a & Ha & Hsa & Hca). destruct Hv as (b & Hb & Hsb & Hcb).
    rewrite Ha, Hb, Hsa, Hsb, shape_eqb_refl.
    destruct (alloc_array_fresh (zip_cells op a b) s) as (Hfresh & Hs' & Hsub).
    destruct (alloc_array (zip_cells op a b) s) as [l s'] eqn:Halloc. cbn [fst snd] in *.
    exists (VArray l), s'. repeat split; try assumption; try reflexivity.
    cbn. exists (zip_cells op a b). subst s'. rewrite lookup_insert_eq.
    repeat split; [exact Hsa|]. intros i j Hi Hj.
    apply cell_zip_cells; [apply Hca|apply Hcb]; assumption.
Qed.

Lemma denotes_constant (s : array_store) (shp : nat * nat) (c : float) :
  denotes s shp (VFloat c) (fun _ _ => c).
Proof. intros i j. reflexivity. Qed.

Lemma lookup_None_weaken (s s' : array_store) (l : loc) :
  s ⊆ s' -> s' !! l = None -> s !! l = None.
Proof.
  intros Hsub Hnone. destruct (s !! l) as [a|] eqn:Ha; [|reflexivity].
  rewrite (lookup_weaken _ _ _ _ Ha Hsub) in Hnone. discriminate.
Qed.

(** One operation of a chain: the operation is run, its result is named, and
    the equation of the run is used in the goal. *)
Ltac np_step op Hu Hv r s' Hsub Hden Hunused :=
  let Heq := fresh "Heq" in
  let Harr := fresh "Harr" in
  destruct (np_binop_denotes op _ _ _ _ _ _ Hu Hv)
    as (r & s' & Heq & Hsub & Hden & Harr & Hunused);
  unfold np_pow2; rewrite Heq; cbv beta iota;
  destruct r as [?|r]; [cbn in Harr; discriminate|]; clear Heq Harr.

Set Warnings "-inexact-float".
(** X5: on two grids of one shape [dX_dt] returns two new arrays, distinct
    from each other, of that shape, which hold at every point the two
    formulas on the numbers the grids hold there; the arrays that existed,
    the two grids among them, are as they were. *)
Theorem dX_dt_on_grids (s : array_store) (shp : nat * nat) (lx ly : loc)
    (gx gy : nat -> nat -> float) (t : pyval) :
  denotes s shp (VArray lx) gx ->
  denotes s shp (VArray ly) gy ->
  exists (ldx ldy : loc) (s' : array_store),
    dX_dt_body [VArray lx; VArray ly] t s = (Return [VArray ldx; VArray ldy], s') /\
    s ⊆ s' /\ s !! ldx = None /\ s !! ldy = None /\ ldx <> ldy /\
    denotes s' shp (VArray ldx) (fun i j => fst (dX_dt_point (gx i j) (gy i j))) /\
    denotes s' shp (VArray ldy) (fun i j => snd (dX_dt_point (gx i j) (gy i j))).
Proof.
  intros HX HY.
  unfold dX_dt_body, bind, lift_outcome. rewrite py_index_first, py_index_second.
  cbv beta iota.
  np_step PrimFloat.mul HX HX x2 s1 S1 Hx2 U1.
  apply (denotes_weaken _ _ _ _ _ S1) in HX, HY.
  np_step PrimFloat.mul (denotes_constant s1 shp 0.02%float) Hx2 a s2 S2 Ha U2.
  apply (denotes_weaken _ _ _ _ _ S2) in HX, HY.
  np_step PrimFloat.mul Ha HY b s3 S3 Hb U3.
  apply (denotes_weaken _ _ _ _ _ S3) in HX, HY.
  np_step PrimFloat.add (denotes_constant s3 shp 1%float) Hb c s4 S4 Hc U4.
  apply (denotes_weaken _ _ _ _ _ S4) in HX, HY.
  np_step PrimFloat.mul (denotes_constant s4 shp 2%float) HX d s5 S5 Hd U5.
  apply (denotes_weaken _ _ _ _ _ S5) in HX, HY, Hc.
  np_step PrimFloat.sub Hc Hd e s6 S6 He U6.
  apply (denotes_weaken _ _ _ _ _ S6) in HX, HY.
  np_step PrimFloat.mul (denotes_constant s6 shp 0.04%float) HX g s7 S7 Hg U7.
  apply (denotes_weaken _ _ _ _ _ S7) in HX, HY, He.
  np_step PrimFloat.sub He Hg dX s8 S8 HdX U8.
  apply (denotes_weaken _ _ _ _ _ S8) in HX, HY.
  np_step PrimFloat.mul (denotes_constant s8 shp 2%float) HX h s9 S9 Hh U9.
  apply (denotes_weaken _ _ _ _ _ S9) in HX, HY.
  np_step PrimFloat.mul HX HX x2' s10 S10 Hx2' U10.
  apply (denotes_weaken _ _ _ _ _ S10) in HX, HY, Hh.
  np_step PrimFloat.mul (denotes_constant s10 shp 0.02%float) Hx2' a' s11 S11 Ha' U11.
  apply (denotes_weaken _ _ _ _ _ S11) in HX, HY, Hh.
  np_step PrimFloat.mul Ha' HY b' s12 S12 Hb' U12.
  apply (denotes_weaken _ _ _ _ _ S12) in HX, HY, Hh.
  np_step PrimFloat.sub Hh Hb' dY s13 S13 HdY U13.
  assert (s ⊆ s7) as S07.
  { transitivity s1; [exact S1|]. transitivity s2; [exact S2|].
    transitivity s3; [exact S3|]. transitivity s4; [exact S4|].
    transitivity s5; [exact S5|]. transitivity s6; [exact S6|]. exact S7. }
  assert (s8 ⊆ s12) as S812.
  { transitivity s9; [exact S9|]. transitivity s10; [exact S10|].
    transitivity s11; [exact S11|]. exact S12. }
  assert (s ⊆ s12) as S012.
  { transitivity s7; [exact S07|]. transitivity s8; [exact S8|]. exact S812. }
  exists dX, dY, s13. cbn in U8, U13.
  split; [reflexivity|].
  split; [transitivity s12; [exact S012|exact S13]|].
  split; [exact (lookup_None_weaken _ _ _ S07 U8)|].
  split; [exact (lookup_None_weaken _ _ _ S012 U13)|].
  split.
  { intros Heq. subst dY. destruct HdX as (arr & Harr & _).
    rewrite (lookup_weaken _ _ _ _ Harr S812) in U13. discriminate. }
  split; [|exact HdY].
  apply (denotes_weaken s8); [|exact HdX].
  transitivity s12; [exact S812|exact S13].
Qed.
Set Warnings "+inexact-float".

Lemma denotes_grid_of (s : array_store) (l : loc) (a : ndarray) :
  s !! l = Some a -> wf_ndarray a -> denotes s (shape a) (VArray l) (grid_of a).
Proof.
  intros Ha [Hrows Hcols]. exists a. split; [exact Ha|]. split; [reflexivity|].
  intros i j Hi Hj. unfold grid_of, cell.
  destruct (lookup_lt_is_Some_2 (cells a) i) as [row Hrow]; [lia|].
  rewrite Hrow. rewrite Forall_forall in Hcols.
  assert (length row = snd (shape a)) as Hlen
    by (apply Hcols, list_elem_of_lookup; eauto).
  destruct (lookup_lt_is_Some_2 row j) as [x Hx]; [lia|].
  rewrite Hx. reflexivity.
Qed.

Lemma two_arrays_wf :
  wf_ndarray (mk_ndarray (2%nat, 2%nat) [[0; 3]; [0; 0]]%float) /\
  wf_ndarray (mk_ndarray (2%nat, 2%nat) [[0; 4]; [0; 1]]%float).
Proof. split; (split; [reflexivity|repeat constructor]). Qed.

Lemma dX_dt_on_two_arrays :
  exists (ldx ldy : loc) (s' : array_store),
    dX_dt_body [VArray 1%positive; VArray 2%positive] (VFloat 0%float) two_arrays
      = (Return [VArray ldx; VArray ldy], s') /\
    two_arrays ⊆ s' /\ two_arrays !! ldx = None /\ two_arrays !! ldy = None /\ ldx <> ldy /\
    denotes s' (2%nat, 2%nat) (VArray ldx)
      (fun i j => fst (dX_dt_point
                         (grid_of (mk_ndarray (2%nat, 2%nat) [[0; 3]; [0; 0]]%float) i j)
                         (grid_of (mk_ndarray (2%nat, 2%nat) [[0; 4]; [0; 1]]%float) i j))) /\
    denotes s' (2%nat, 2%nat) (VArray ldy)
      (fun i j => snd (dX_dt_point
                         (grid_of (mk_ndarray (2%nat, 2%nat) [[0; 3]; [0; 0]]%float) i j)
                         (grid_of (mk_ndarray (2%nat, 2%nat) [[0; 4]; [0; 1]]%float) i j))).
Proof.
  refine (dX_dt_on_grids two_arrays (2%nat, 2%nat) 1%positive 2%positive _ _ (VFloat 0%float)
            (denotes_grid_of two_arrays 1%positive _ _ (proj1 two_arrays_wf))
            (denotes_grid_of two_arrays 2%positive _ _ (proj2 two_arrays_wf)));
    reflexivity.
Defined.

(** ** The direction field of the script's vector field *)

Lemma linspace_nonneg (start stop : float) (num : Z) :
  (0 <= num)%Z ->
  exists xs : list float, linspace start stop num = Return xs /\ length xs = Z.to_nat num.
Proof.
  intros Hnum. unfold linspace.
  destruct (Z.ltb_spec num 0); [lia|].
  destruct (Z.eqb_spec num 0) as [->|]; [exists []; split; reflexivity|].
  destruct (Z.eqb_spec num 1) as [->|]; [eexists; split; reflexivity|].
  eexists. split; [reflexivity|].
  rewrite length_app, length_map, length_arange. cbn [length]. lia.
Qed.

Lemma meshgrid_denotes (s : array_store) (lX lY : loc) (xs ys : list float) :
  s !! lX = Some (fst (meshgrid xs ys)) ->
  s !! lY = Some (snd (meshgrid xs ys)) ->
  denotes s (length ys, length xs) (VArray lX) (fun _ j => default 0%float (xs !! j)) /\
  denotes s (length ys, length xs) (VArray lY) (fun i _ => default 0%float (ys !! i)).
Proof.
  intros HX HY. split.
  - exists (fst (meshgrid xs ys)). split; [exact HX|]. split; [reflexivity|].
    intros i j Hi Hj. cbn [fst snd] in Hi, Hj. unfold cell, meshgrid. cbn [fst cells].
    rewrite list_lookup_fmap.
    destruct (lookup_lt_is_Some_2 ys i Hi) as [y Hy]. rewrite Hy. cbn.
    destruct (lookup_lt_is_Some_2 xs j Hj) as [x Hx]. rewrite Hx. reflexivity.
  - exists (snd (meshgrid xs ys)). split; [exact HY|]. split; [reflexivity|].
    intros i j Hi Hj. cbn [fst snd] in Hi, Hj. unfold cell, meshgrid. cbn [snd cells].
    rewrite list_lookup_fmap.
    destruct (lookup_lt_is_Some_2 ys i Hi) as [y Hy]. rewrite Hy. cbn.
    rewrite list_lookup_fmap.
    destruct (lookup_lt_is_Some_2 xs j Hj) as [x Hx]. rewrite Hx. reflexivity.
Qed.

Section DirectionField.
Context {np : Numpy}.

Lemma make_grid_denotes (s : array_store) (xmax ymax : float) (n : Z) (xs ys : list float) :
  linspace 0%float xmax n = Return xs ->
  linspace 0%float ymax n = Return ys ->
  exists (lX lY : loc) (s' : array_store),
    make_grid xmax ymax n s = (Return (VArray lX, VArray lY), s') /\
    s ⊆ s' /\ s !! lX = None /\ s !! lY = None /\
    denotes s' (length ys, length xs) (VArray lX) (fun _ j => default 0%float (xs !! j)) /\
    denotes s' (length ys, length xs) (VArray lY) (fun i _ => default 0%float (ys !! i)).
Proof.
  intros Hx Hy. unfold make_grid, bind, lift_outcome. rewrite Hx, Hy.
  destruct (alloc_array_fresh (fst (meshgrid xs ys)) s) as (F1 & E1 & S1).
  destruct (alloc_array (fst (meshgrid xs ys)) s) as [lX s1]. cbn [fst snd] in F1, E1, S1.
  destruct (alloc_array_fresh (snd (meshgrid xs ys)) s1) as (F2 & E2 & S2).
  destruct (alloc_array (snd (meshgrid xs ys)) s1) as [lY s2]. cbn [fst snd] in F2, E2, S2.
  exists lX, lY, s2. split; [reflexivity|].
  split; [transitivity s1; assumption|].
  split; [exact F1|]. split; [exact (lookup_None_weaken _ _ _ S1 F2)|].
  apply meshgrid_denotes.
  - apply (lookup_weaken s1); [|exact S2]. rewrite E1. apply lookup_insert_eq.
  - rewrite E2. apply lookup_insert_eq.
Qed.


Lemma direction_field_of_dX_dt_run (s : array_store) (xmax ymax : float) (n : Z)
    (xs ys : list float) :
  linspace 0%float xmax n = Return xs ->
  linspace 0%float ymax n = Return ys ->
  exists (lX lY ldx ldy lm : loc) (aX aY aDX aDY aM : ndarray) (s' : array_store),
    direction_field dX_dt xmax ymax n s
      = (Return (VArray lX, VArray lY, VArray ldx, VArray ldy, VArray lm), s') /\
    s ⊆ s' /\
    s' !! lX = Some aX /\ s' !! lY = Some aY /\ s' !! ldx = Some aDX /\
    s' !! ldy = Some aDY /\ s' !! lm = Some aM /\
    forall (i j : nat) (x y : float), ys !! i = Some y -> xs !! j = Some x ->
      cell aX i j = Some x /\ cell aY i j = Some y /\
      cell aM i j
        = Some (replace_zero (hypot (fst (dX_dt_point x y)) (snd (dX_dt_point x y)))) /\
      cell aDX i j
        = Some (PrimFloat.div (fst (dX_dt_point x y))
                  (replace_zero (hypot (fst (dX_dt_point x y)) (snd (dX_dt_point x y))))) /\
      cell aDY i j
        = Some (PrimFloat.div (snd (dX_dt_point x y))
                  (replace_zero (hypot (fst (dX_dt_point x y)) (snd (dX_dt_point x y))))).
Proof.
  intros Hx Hy.
  destruct (make_grid_denotes s xmax ymax n xs ys Hx Hy)
    as (lX & lY & s2 & Hgrid & S2 & FX & FY & HX & HY).
  destruct (dX_dt_on_grids s2 _ lX lY _ _ (VFloat 0%float) HX HY)
    as (ldx & ldy & s3 & Hrun & S3 & Fdx & Fdy & Hne & Hdx & Hdy).
  destruct Hdx as (a & Ha & Hsa & Hca). destruct Hdy as (b & Hb & Hsb & Hcb).
  destruct (normalize_arrays s3 ldx ldy a b Ha Hb ltac:(congruence)) as (Hnorm & Hmx & Hmy).
  destruct (decide (ldy = ldx)) as [Heq|_]; [congruence|].
  set (lm := fresh (dom s3)) in *.
  set (m := map_cells replace_zero (zip_cells hypot a b)) in *.
  destruct HX as (aX & HaX & HsX & HcX). destruct HY as (aY & HaY & HsY & HcY).
  pose proof (lookup_weaken _ _ _ _ HaX S3) as HaX3.
  pose proof (lookup_weaken _ _ _ _ HaY S3) as HaY3.
  assert (lm <> lX) as HmX.
  { intros Heq. apply (is_fresh (dom s3)). fold lm. rewrite Heq. apply elem_of_dom. eauto. }
  assert (lm <> lY) as HmY.
  { intros Heq. apply (is_fresh (dom s3)). fold lm. rewrite Heq. apply elem_of_dom. eauto. }
  assert (ldx <> lX) as HdX by (intros ->; congruence).
  assert (ldx <> lY) as HdY by (intros ->; congruence).
  assert (ldy <> lX) as HeX by (intros ->; congruence).
  assert (ldy <> lY) as HeY by (intros ->; congruence).
  assert (s !! lm = None) as Fm.
  { apply (lookup_None_weaken s s3); [transitivity s2; assumption|].
    apply not_elem_of_dom, is_fresh. }
  exists lX, lY, ldx, ldy, lm, aX, aY.
  eexists _, _, m, _. split.
  { unfold direction_field, bind. rewrite Hgrid. cbn [fst snd].
    unfold field_on_grid, bind, call_without_time. cbn [time_default body dX_dt].
    rewrite Hrun. cbn [unpack2 ret fst snd]. rewrite Hnorm. reflexivity. }
  split.
  { apply insert_subseteq_r; [exact (lookup_None_weaken _ _ _ S2 Fdy)|].
    apply insert_subseteq_r; [exact (lookup_None_weaken _ _ _ S2 Fdx)|].
    apply insert_subseteq_r; [exact Fm|]. apply insert_subseteq_r; [exact Fm|].
    transitivity s2; assumption. }
  split; [rewrite !lookup_insert_ne by congruence; exact HaX3|].
  split; [rewrite !lookup_insert_ne by congruence; exact HaY3|].
  split; [rewrite lookup_insert_ne, lookup_insert_eq by congruence; reflexivity|].
  split; [rewrite lookup_insert_eq; reflexivity|].
  split; [rewrite !lookup_insert_ne, lookup_insert_eq by congruence; reflexivity|].
  intros i j x y Hyi Hxj.
  assert (i < length ys)%nat as Hi by (apply lookup_lt_is_Some; eauto).
  assert (j < length xs)%nat as Hj by (apply lookup_lt_is_Some; eauto).
  specialize (HcX i j Hi Hj). specialize (HcY i j Hi Hj).
  specialize (Hca i j Hi Hj). specialize (Hcb i j Hi Hj).
  rewrite Hxj in HcX, Hca, Hcb. rewrite Hyi in HcY, Hca, Hcb. cbn [default] in *.
  assert (cell m i j
          = Some (replace_zero (hypot (fst (dX_dt_point x y)) (snd (dX_dt_point x y))))) as Hm
    by (apply cell_map_cells, cell_zip_cells; assumption).
  split; [exact HcX|]. split; [exact HcY|]. split; [exact Hm|].
  split; apply cell_zip_cells; assumption.
Qed.


(** X6: for the vector field of the script and a sampling count that is not
    negative, the direction field is computed to its end, and at the grid
    point of row [i] and column [j], where [X] holds [x = xs[j]] and [Y]
    holds [y = ys[i]], [quiver] is given the norm of the derivative at
    [(x, y)], with 1 in the place of zero, and the two components of the
    derivative divided by it.  Every array that existed is as it was. *)
Theorem direction_field_of_dX_dt (s : array_store) (xmax ymax : float) (n : Z) :
  (0 <= n)%Z ->
  exists (xs ys : list float) (fld : Field) (s' : array_store),
    linspace 0%float xmax n = Return xs /\
    linspace 0%float ymax n = Return ys /\
    length xs = Z.to_nat n /\ length ys = Z.to_nat n /\
    bind (direction_field dX_dt xmax ymax n) read_field s = (Return fld, s') /\
    s ⊆ s' /\
    forall (i j : nat) (x y : float), ys !! i = Some y -> xs !! j = Some x ->
      cell (grid_x fld) i j = Some x /\ cell (grid_y fld) i j = Some y /\
      cell (field_norm fld) i j
        = Some (replace_zero (hypot (fst (dX_dt_point x y)) (snd (dX_dt_point x y)))) /\
      cell (field_dx fld) i j
        = Some (PrimFloat.div (fst (dX_dt_point x y))
                  (replace_zero (hypot (fst (dX_dt_point x y)) (snd (dX_dt_point x y))))) /\
      cell (field_dy fld) i j
        = Some (PrimFloat.div (snd (dX_dt_point x y))
                  (replace_zero (hypot (fst (dX_dt_point x y)) (snd (dX_dt_point x y))))).
Proof.
  intros Hn.
  destruct (linspace_nonneg 0%float xmax n Hn) as (xs & Hx & Hlx).
  destruct (linspace_nonneg 0%float ymax n Hn) as (ys & Hy & Hly).
  destruct (direction_field_of_dX_dt_run s xmax ymax n xs ys Hx Hy)
    as (lX & lY & ldx & ldy & lm & aX & aY & aDX & aDY & aM & s'
        & Hrun & Hsub & HX & HY & HDX & HDY & HM & Hcells).
  exists xs, ys, (mk_Field aX aY aDX aDY aM), s'.
  split; [exact Hx|]. split; [exact Hy|]. split; [exact Hlx|]. split; [exact Hly|].
  split.
  { unfold bind at 1. rewrite Hrun. unfold read_field, bind, read_array.
    rewrite HX, HY, HDX, HDY, HM. reflexivity. }
  split; [exact Hsub|]. exact Hcells.
Qed.

End DirectionField.

Lemma direction_field_of_dX_dt_on_a_small_grid :
  exists (xs ys : list float) (fld : Field) (s' : array_store),
    linspace 0%float 3%float 2 = Return xs /\
    linspace 0%float 4%float 2 = Return ys /\
    length xs = Z.to_nat 2 /\ length ys = Z.to_nat 2 /\
    bind (direction_field (H := sqrt_hypot) dX_dt 3%float 4%float 2) read_field ∅
      = (Return fld, s') /\
    ∅ ⊆ s' /\
    forall (i j : nat) (x y : float), ys !! i = Some y -> xs !! j = Some x ->
      cell (grid_x fld) i j = Some x /\ cell (grid_y fld) i j = Some y /\
      cell (field_norm fld) i j
        = Some (replace_zero (hypot (Numpy := sqrt_hypot)
                                (fst (dX_dt_point x y)) (snd (dX_dt_point x y)))) /\
      cell (field_dx fld) i j
        = Some (PrimFloat.div (fst (dX_dt_point x y))
                  (replace_zero (hypot (Numpy := sqrt_hypot)
                                   (fst (dX_dt_point x y)) (snd (dX_dt_point x y))))) /\
      cell (field_dy fld) i j
        = Some (PrimFloat.div (snd (dX_dt_point x y))
                  (replace_zero (hypot (Numpy := sqrt_hypot)
                                   (fst (dX_dt_point x y)) (snd (dX_dt_point x y))))).
Proof.
  refine (direction_field_of_dX_dt (np := sqrt_hypot) ∅ 3%float 4%float 2 _). lia.
Defined.

(** ** What concentrations draws *)

Lemma column_spec (a : ndarray) (k : Z) :
  column a k = if column_in_range a k then Return (column_values a k) else Raise IndexError.
Proof.
  unfold column, column_in_range, column_values. cbv zeta.
  set (n := Z.of_nat (snd (shape a))).
  destruct (Z.ltb_spec k 0); destruct (Z.leb_spec (- n) k); destruct (Z.ltb_spec k n);
    cbn [andb];
    repeat match goal with
    | |- context [(?x <=? ?y)%Z] => destruct (Z.leb_spec x y); try lia
    | |- context [(?x <? ?y)%Z] => destruct (Z.ltb_spec x y); try lia
    end; reflexivity.
Qed.

Section ConcentrationsRuns.
Context {integ : Integrator}.
Lemma plot_step_run (t : loc) (grid : list float) (X : ndarray) (k : Z) (w : World) :
  lists w !! t = Some grid ->
  plot_step t X k tt w
  = if column_in_range X k
    then (Return tt, set_figure (figure w ++ [curve grid X k]) w)
    else (Raise IndexError, w).
Proof.
  intros Ht. unfold plot_step, bind, read_list, lift_outcome. rewrite Ht, column_spec.
  destruct (column_in_range X k); reflexivity.
Qed.

Lemma plot_loop_all_in_range (t : loc) (grid : list float) (X : ndarray) (Xs : list Z) :
  forallb (column_in_range X) Xs = true ->
  forall w : World, lists w !! t = Some grid ->
    for_each Xs tt (plot_step t X) w
    = (Return tt, set_figure (figure w ++ map (curve grid X) Xs) w).
Proof.
  induction Xs as [|k rest IH]; intros Hall w Ht.
  - cbn. unfold ret, set_figure. rewrite app_nil_r. destruct w; reflexivity.
  - cbn [forallb] in Hall. apply andb_true_iff in Hall as [Hk Hrest].
    cbn [for_each]. unfold bind. rewrite (plot_step_run t grid X k w Ht), Hk.
    rewrite (IH Hrest) by exact Ht.
    unfold set_figure. cbn. rewrite <- app_assoc. reflexivity.
Qed.

Lemma plot_loop_out_of_range (t : loc) (grid : list float) (X : ndarray) (Xs : list Z) :
  forallb (column_in_range X) Xs = false ->
  forall w : World, lists w !! t = Some grid ->
    fst (for_each Xs tt (plot_step t X) w) = Raise IndexError.
Proof.
  induction Xs as [|k rest IH]; intros Hall w Ht; [discriminate|].
  cbn [forallb] in Hall. cbn [for_each]. unfold bind.
  rewrite (plot_step_run t grid X k w Ht).
  destruct (column_in_range X k); [|reflexivity].
  apply IH; [exact Hall|exact Ht].
Qed.

(** The world in which [concentrations] calls [getOutput]. *)
Lemma concentrations_unfolded (w : World) (self : loc) (o : ODESystemSimulator)
    (endTime : float) (Xs : list Z) (grid : list float) :
  objects w !! self = Some o ->
  linspace 0%float endTime 100000 = Return grid ->
  exists (t zeros : loc) (w1 : World),
    concentrations self endTime Xs w
      = bind (getOutput self zeros t) (fun X => plot_concentrations t X Xs) w1 /\
    objects w1 = objects w /\ solver w1 = solver w /\ figure w1 = figure w /\
    warnings w1 = warnings w /\
    lists w1 !! t = Some grid /\
    lists w1 !! zeros = Some (repeat 0%float (Z.to_nat (systemSize o))).
Proof.
  intros Hself Hgrid.
  set (t := fresh (dom (lists w))).
  set (zeros := fresh (dom (<[t := grid]> (lists w)))).
  assert (t <> zeros) as Hne.
  { intros Heq. apply (is_fresh (dom (<[t := grid]> (lists w)))). fold zeros.
    rewrite <- Heq, dom_insert_L. set_solver. }
  exists t, zeros,
    (set_lists (<[zeros := repeat 0%float (Z.to_nat (systemSize o))]>
                  (<[t := grid]> (lists w))) w).
  split.
  { unfold concentrations. unfold bind at 1. unfold lift_outcome. rewrite Hgrid.
    unfold bind at 1. unfold new_list at 1. cbn beta iota zeta.
    unfold bind at 1. unfold get_systemSize at 1. cbn [objects set_lists].
    rewrite Hself.
    unfold bind at 1. unfold new_list at 1. cbn beta iota zeta. cbn [lists set_lists].
    reflexivity. }
  cbn [objects solver figure warnings lists set_lists].
  repeat split.
  - rewrite lookup_insert_ne by congruence. apply lookup_insert_eq.
  - apply lookup_insert_eq.
Qed.

Lemma plot_concentrations_run (t : loc) (grid : list float) (X : ndarray) (Xs : list Z)
    (w : World) :
  lists w !! t = Some grid ->
  (forallb (column_in_range X) Xs = true ->
   plot_concentrations t X Xs w
   = (Return tt,
      set_figure (figure w ++ Figure :: map (curve grid X) Xs
                    ++ [Title "System Concentrations over time"; XLabel "Time, $t$";
                        YLabel "Variable Concentrations"; Legend; Show]) w)) /\
  (forallb (column_in_range X) Xs = false ->
   fst (plot_concentrations t X Xs w) = Raise IndexError).
Proof.
  intros Ht. split; intros Hall.
  - unfold plot_concentrations. unfold bind at 1. unfold draw at 1. cbv beta iota.
    unfold bind at 1.
    change (for_each Xs tt _) with (for_each Xs tt (plot_step t X)).
    rewrite (plot_loop_all_in_range t grid X Xs Hall) by exact Ht.
    unfold bind, draw, set_figure. cbn.
    repeat rewrite <- app_assoc. reflexivity.
  - unfold plot_concentrations. unfold bind at 1. unfold draw at 1. cbv beta iota.
    unfold bind at 1.
    change (for_each Xs tt _) with (for_each Xs tt (plot_step t X)).
    pose proof (plot_loop_out_of_range t grid X Xs Hall
                  (set_figure (figure w ++ [Figure]) w) Ht) as Hloop.
    destruct (for_each Xs tt (plot_step t X) (set_figure (figure w ++ [Figure]) w))
      as [[[]|e] w']; cbn in Hloop; [discriminate|].
    injection Hloop as ->. reflexivity.
Qed.

Lemma forallb_column_in_range (X : ndarray) (N : Z) (Xs : list Z) :
  snd (shape X) = Z.to_nat N -> (0 <= N)%Z ->
  forallb (column_in_range X) Xs = true <-> Forall (fun k => (- N <= k < N)%Z) Xs.
Proof.
  intros Hcols HN. rewrite forallb_forall, Forall_forall.
  split; intros H k Hk.
  - apply list_elem_of_In in Hk. specialize (H k Hk).
    unfold column_in_range in H. rewrite Hcols in H.
    apply andb_true_iff in H as [H1 H2]. apply Z.leb_le in H1. apply Z.ltb_lt in H2. lia.
  - apply list_elem_of_In in Hk. specialize (H k Hk).
    unfold column_in_range. rewrite Hcols.
    apply andb_true_iff. split; [apply Z.leb_le|apply Z.ltb_lt]; lia.
Qed.

(** The run of [concentrations] up to the plotting, when the solver
    returns a table. *)
Lemma concentrations_integrates (w : World) (self : loc) (f : VectorField) (N : Z)
    (endTime : float) (Xs : list Z) :
  odeint_returns_table ->
  (0 <= N)%Z ->
  vector_field_of_size f (Z.to_nat N) ->
  objects w !! self = Some (mk_ODESystemSimulator f N) ->
  exists (grid : list float) (X : ndarray) (t : loc) (w2 : World),
    linspace 0%float endTime 100000 = Return grid /\
    reply_value (fst (odeint f (repeat 0%float (Z.to_nat N)) grid (solver w))) = Return X /\
    solver w2 = snd (odeint f (repeat 0%float (Z.to_nat N)) grid (solver w)) /\
    snd (shape X) = Z.to_nat N /\
    concentrations self endTime Xs w = plot_concentrations t X Xs w2 /\
    lists w2 !! t = Some grid /\ figure w2 = figure w /\ objects w2 = objects w.
Proof.
  intros Hode HN Hf Hself.
  destruct (linspace_samples 0%float endTime 100000 ltac:(lia))
    as (grid & Hgrid & Hlen & _ & _).
  destruct (concentrations_unfolded w self _ endTime Xs grid Hself Hgrid)
    as (t & zeros & w1 & Hrun & Hobj & Hsolver & Hfig & Hwarn & Ht & Hzeros).
  cbn [systemSize] in Hzeros.
  assert (grid <> []) as Hne by (intros ->; cbn in Hlen; lia).
  assert (length (repeat 0%float (Z.to_nat N)) = Z.to_nat N) as Hlz by apply repeat_length.
  destruct (Hode f (repeat 0%float (Z.to_nat N)) grid (solver w)
              ltac:(rewrite Hlz; exact Hf) Hne) as (X & HX & _ & Hshape).
  assert (objects w1 !! self = Some (mk_ODESystemSimulator f N)) as Hself1
    by (rewrite Hobj; exact Hself).
  pose proof (getOutput_matching_length w1 self zeros t _ _ grid Hself1 Hzeros Ht
                ltac:(cbn [systemSize]; rewrite Hlz; lia)) as Hget.
  cbn [systemFunction] in Hget. unfold call_odeint in Hget. rewrite Hsolver in Hget.
  destruct (odeint f (repeat 0%float (Z.to_nat N)) grid (solver w)) as [r s'] eqn:Hr.
  cbn [fst snd] in HX |- *. rewrite HX in Hget.
  exists grid, X, t, (set_solver s' (set_warnings (warnings w1 ++ reply_warnings r) w1)).
  rewrite Hr. cbn [fst snd].
  split; [exact Hgrid|]. split; [exact HX|]. split; [reflexivity|].
  split; [rewrite Hshape, Hlz; reflexivity|].
  split; [rewrite Hrun; unfold bind at 1; rewrite Hget; reflexivity|].
  cbn [lists figure objects solver set_solver set_warnings].
  repeat split; assumption.
Qed.

(** X7: for a size [N] that is not negative and variables all within
    [-N, N), with a solver that returns its table, [concentrations] runs to
    its end after one call of the solver, and what it draws is a new figure,
    one curve for each entry of [Xs], in the order of [Xs] (the column of
    that variable against the time grid), the title, the two axis labels,
    the legend, and the show. *)
Theorem concentrations_draws_each_variable (w : World) (self : loc) (f : VectorField)
    (N : Z) (endTime : float) (Xs : list Z) :
  odeint_returns_table ->
  (0 <= N)%Z ->
  vector_field_of_size f (Z.to_nat N) ->
  objects w !! self = Some (mk_ODESystemSimulator f N) ->
  Forall (fun k => (- N <= k < N)%Z) Xs ->
  exists (grid : list float) (X : ndarray) (w' : World),
    linspace 0%float endTime 100000 = Return grid /\
    reply_value (fst (odeint f (repeat 0%float (Z.to_nat N)) grid (solver w))) = Return X /\
    concentrations self endTime Xs w = (Return tt, w') /\
    solver w' = snd (odeint f (repeat 0%float (Z.to_nat N)) grid (solver w)) /\
    figure w' = figure w ++ Figure :: map (curve grid X) Xs
                  ++ [Title "System Concentrations over time"; XLabel "Time, $t$";
                      YLabel "Variable Concentrations"; Legend; Show].
Proof.
  intros Hode HN Hf Hself HXs.
  destruct (concentrations_integrates w self f N endTime Xs Hode HN Hf Hself)
    as (grid & X & t & w2 & Hgrid & HX & Hsolver & Hcols & Hrun & Ht & Hfig & _).
  apply (forallb_column_in_range X N Xs Hcols HN) in HXs.
  destruct (plot_concentrations_run t grid X Xs w2 Ht) as [Hok _].
  exists grid, X. eexists. split; [exact Hgrid|]. split; [exact HX|].
  split; [rewrite Hrun; exact (Hok HXs)|].
  cbn [solver figure set_figure]. split; [exact Hsolver|]. rewrite Hfig. reflexivity.
Qed.

(** X8: under the same conditions, when an entry of [Xs] is outside of
    [-N, N), [concentrations] ends with IndexError, raised by [X[:, Xnum]]. *)
Theorem concentrations_variable_out_of_range (w : World) (self : loc) (f : VectorField)
    (N : Z) (endTime : float) (Xs : list Z) :
  odeint_returns_table ->
  (0 <= N)%Z ->
  vector_field_of_size f (Z.to_nat N) ->
  objects w !! self = Some (mk_ODESystemSimulator f N) ->
  Exists (fun k => (k < - N \/ N <= k)%Z) Xs ->
  fst (concentrations self endTime Xs w) = Raise IndexError.
Proof.
  intros Hode HN Hf Hself HXs.
  destruct (concentrations_integrates w self f N endTime Xs Hode HN Hf Hself)
    as (grid & X & t & w2 & Hgrid & HX & Hsolver & Hcols & Hrun & Ht & Hfig & _).
  destruct (plot_concentrations_run t grid X Xs w2 Ht) as [_ Hbad].
  rewrite Hrun. apply Hbad.
  destruct (forallb (column_in_range X) Xs) eqn:Hall; [|reflexivity].
  apply (forallb_column_in_range X N Xs Hcols HN) in Hall.
  rewrite Forall_forall in Hall. apply Exists_exists in HXs as (k & Hk & Hout).
  specialize (Hall k Hk). lia.
Qed.

(** X9: the constructor takes any int for the size; for a negative one
    [[0] * N] is the empty list, whose length is not [N], so
    [concentrations] ends with the TypeError of the message of [getOutput]:
    the solver was not called and nothing was drawn. *)
Theorem concentrations_negative_size (w : World) (self : loc) (o : ODESystemSimulator)
    (endTime : float) (Xs : list Z) :
  objects w !! self = Some o ->
  (systemSize o < 0)%Z ->
  fst (concentrations self endTime Xs w) = Raise TypeError /\
  solver (snd (concentrations self endTime Xs w)) = solver w /\
  figure (snd (concentrations self endTime Xs w)) = figure w.
Proof.
  intros Hself Hneg.
  destruct (linspace_samples 0%float endTime 100000 ltac:(lia))
    as (grid & Hgrid & _).
  destruct (concentrations_unfolded w self o endTime Xs grid Hself Hgrid)
    as (t & zeros & w1 & Hrun & Hobj & Hsolver & Hfig & Hwarn & Ht & Hzeros).
  assert (objects w1 !! self = Some o) as Hself1 by (rewrite Hobj; exact Hself).
  rewrite Hrun. unfold bind.
  rewrite (getOutput_differing_length w1 self zeros t o _ Hself1 Hzeros)
    by (rewrite repeat_length; lia).
  cbn [fst snd]. repeat split; assumption.
Qed.

End ConcentrationsRuns.

(** ** How trajectories ends *)

Lemma float_pow_nat_S (base : float) (n : nat) :
  float_pow_nat base (S n) = PrimFloat.mul base (float_pow_nat base n).
Proof. reflexivity. Qed.

Lemma line_thickness_overflows (n : nat) :
  (1751 <= n)%nat -> float_pow_nat 1.5%float n = infinity.
Proof.
  intros Hn. replace n with ((n - 1751) + 1751)%nat by lia.
  generalize (n - 1751)%nat as k. clear n Hn.
  induction k as [|k IH].
  - vm_compute. reflexivity.
  - change (S k + 1751)%nat with (S (k + 1751)). rewrite float_pow_nat_S, IH. reflexivity.
Qed.

(** Up to 1750 initial conditions the power is in range. *)
Lemma line_thickness_in_range (n : nat) :
  (n <= 1750)%nat -> py_float_pow 1.5%float n = Return (float_pow_nat 1.5%float n).
Proof.
  intros Hn.
  assert (forallb (fun k => negb (PrimFloat.is_infinity (float_pow_nat 1.5%float k)))
            (seq 0 1751) = true) as Hall by (vm_compute; reflexivity).
  rewrite forallb_forall in Hall.
  specialize (Hall n ltac:(apply in_seq; lia)).
  unfold py_float_pow. cbv zeta.
  destruct (PrimFloat.is_infinity (float_pow_nat 1.5%float n)); [discriminate|reflexivity].
Qed.


Section TrajectoriesRuns.
Context {integ : Integrator} {np : Numpy} {plt : Pylab}.

(** A computation never ends with a value when what follows its first step
    never does, from any world that the first step can leave. *)
Lemma bind_never_returns {A B} (P : World -> Prop) (m : M World A) (k : A -> M World B) :
  (forall w, P w -> P (snd (m w))) ->
  (forall a w, P w -> is_return (fst (k a w)) = false) ->
  forall w, P w -> is_return (fst (bind m k w)) = false.
Proof.
  intros Hm Hk w Hw. unfold bind. specialize (Hm w Hw).
  destruct (m w) as [[a|e] w1]; [|reflexivity].
  apply Hk. exact Hm.
Qed.

Lemma preserves_holds {A} (m : M World A) (self : loc) (o : ODESystemSimulator)
    (ic : loc) (y0 : list float) :
  preserves m -> forall w, holds self o ic y0 w -> holds self o ic y0 (snd (m w)).
Proof.
  intros Hm w [Ho Hl]. destruct (Hm w) as [Hobj Hsub]. split.
  - rewrite Hobj. exact Ho.
  - exact (lookup_weaken _ _ _ _ Hl Hsub).
Qed.

Lemma preserves_trajectory_step (self t : loc) (X1 X2 : Z) (ic : loc) (lw : float) :
  preserves (trajectory_step self t X1 X2 ic lw).
Proof. unfold trajectory_step. frame. Qed.

Lemma loop_wrong_length (self t : loc) (X1 X2 : Z) (o : ODESystemSimulator)
    (ic : loc) (y0 : list float) (ics : list loc) :
  Z.of_nat (length y0) <> systemSize o ->
  In ic ics ->
  forall (lw : float) (w : World), holds self o ic y0 w ->
    is_return (fst (for_each ics lw (trajectory_step self t X1 X2) w)) = false.
Proof.
  intros Hlen. induction ics as [|x rest IH]; intros Hin lw w Hw; [destruct Hin|].
  cbn [for_each]. destruct (decide (x = ic)) as [->|Hne].
  - destruct Hw as [Ho Hl]. unfold bind at 1. unfold trajectory_step, bind at 1.
    rewrite (getOutput_differing_length w self ic t o y0 Ho Hl Hlen). reflexivity.
  - assert (In ic rest) as Hrest by (destruct Hin; [congruence|assumption]).
    apply (bind_never_returns (holds self o ic y0)); [|intros lw' w' Hw'; apply IH; assumption|exact Hw].
    apply preserves_holds, preserves_trajectory_step.
Qed.

(** X10: when one of the initial conditions has a length that is not the
    size of the system, [trajectories] never ends with a value: it raises at
    that initial condition at the latest (the TypeError of [getOutput]), and
    so it draws no direction field. *)
Theorem trajectories_wrong_length (w : World) (self : loc) (o : ODESystemSimulator)
    (ics : list loc) (samplingPoints : Z) (endTime : float) (X1 X2 : Z)
    (ic : loc) (y0 : list float) :
  objects w !! self = Some o ->
  In ic ics ->
  lists w !! ic = Some y0 ->
  Z.of_nat (length y0) <> systemSize o ->
  is_return (fst (trajectories self ics samplingPoints endTime X1 X2 w)) = false.
Proof.
  intros Hself Hin Hic Hlen. unfold trajectories.
  apply (bind_never_returns (holds self o ic y0)); [apply preserves_holds; frame| |split; assumption].
  intros _ w1 Hw1.
  apply (bind_never_returns (holds self o ic y0)); [apply preserves_holds; frame| |exact Hw1].
  intros grid w2 Hw2.
  apply (bind_never_returns (holds self o ic y0)); [apply preserves_holds; frame| |exact Hw2].
  intros t w3 Hw3.
  apply (bind_never_returns (holds self o ic y0)); [apply preserves_holds; frame| |exact Hw3].
  intros lw w4 Hw4. unfold bind at 1.
  pose proof (loop_wrong_length self t X1 X2 o ic y0 ics Hlen Hin lw w4 Hw4) as Hloop.
  change (for_each ics lw _) with (for_each ics lw (trajectory_step self t X1 X2)).
  destruct (for_each ics lw (trajectory_step self t X1 X2) w4) as [[lw'|e] w5];
    [discriminate|reflexivity].
Qed.



(** X11: the first line thickness is [1.5 ** len(listInitialConditions)],
    which is out of the range of a float from 1751 initial conditions on:
    [trajectories] then ends with OverflowError, with the new figure as all
    it has drawn and the solver not called. *)
Theorem trajectories_too_many_initial_conditions (w : World) (self : loc) (ics : list loc)
    (samplingPoints : Z) (endTime : float) (X1 X2 : Z) :
  (1751 <= length ics)%nat ->
  fst (trajectories self ics samplingPoints endTime X1 X2 w) = Raise OverflowError /\
  solver (snd (trajectories self ics samplingPoints endTime X1 X2 w)) = solver w /\
  figure (snd (trajectories self ics samplingPoints endTime X1 X2 w)) = figure w ++ [Figure].
Proof.
  intros Hn.
  destruct (linspace_samples 0%float endTime 100000 ltac:(lia)) as (grid & Hgrid & _).
  unfold trajectories. unfold bind at 1. unfold draw at 1. cbv beta iota.
  unfold bind at 1. unfold lift_outcome at 1. rewrite Hgrid.
  unfold bind at 1. unfold new_list at 1. cbv beta iota zeta.
  unfold bind at 1. unfold lift_outcome at 1.
  unfold py_float_pow. rewrite (line_thickness_overflows _ Hn).
  cbn. repeat split; reflexivity.
Qed.

(** X12: with a negative number of sampling points [trajectories] never
    ends with a value: [linspace] refuses the number, after the trajectories
    have been integrated and drawn. *)
Theorem trajectories_negative_sampling (w : World) (self : loc) (ics : list loc)
    (samplingPoints : Z) (endTime : float) (X1 X2 : Z) :
  (samplingPoints < 0)%Z ->
  is_return (fst (trajectories self ics samplingPoints endTime X1 X2 w)) = false.
Proof.
  intros Hn. unfold trajectories.
  do 9 (apply (bind_never_returns (fun _ => True)); [intros; exact I|intros ? ? _|exact I]).
  unfold bind at 1. unfold on_arrays, make_grid, bind, lift_outcome, linspace.
  destruct (Z.ltb_spec samplingPoints 0); [reflexivity|lia].
Qed.

(** X13: two simulators built one after the other are two objects, beside
    the simulators that exist, and each keeps its own vector field and size:
    [getOutput] on the first checks the length of the initial conditions
    against the size of the first and, when they agree, is the call of the
    solver on the vector field of the first. *)
Theorem two_simulators_are_independent (w : World) (f g : VectorField) (N K : Z)
    (ic t : loc) (y0 ts : list float) :
  lists w !! ic = Some y0 ->
  lists w !! t = Some ts ->
  exists (first second : loc) (w2 : World),
    bind (init f N) (fun a => bind (init g K) (fun b => ret (a, b))) w
      = (Return (first, second), w2) /\
    first <> second /\
    objects w ⊆ objects w2 /\
    objects w2 !! first = Some (mk_ODESystemSimulator f N) /\
    objects w2 !! second = Some (mk_ODESystemSimulator g K) /\
    getOutput first ic t w2
    = if (Z.of_nat (length y0) =? N)%Z then call_odeint f y0 ts w2 else (Raise TypeError, w2).
Proof.
  intros Hic Ht.
  set (a := fresh (dom (objects w))).
  set (w1 := set_objects (<[a := mk_ODESystemSimulator f N]> (objects w)) w).
  set (b := fresh (dom (objects w1))).
  set (w2 := set_objects (<[b := mk_ODESystemSimulator g K]> (objects w1)) w1).
  assert (objects w !! a = None) as Fa by apply not_elem_of_dom, is_fresh.
  assert (objects w1 !! b = None) as Fb by apply not_elem_of_dom, is_fresh.
  assert (objects w1 !! a = Some (mk_ODESystemSimulator f N)) as Ha1
    by apply lookup_insert_eq.
  assert (a <> b) as Hne by (intros Heq; rewrite Heq in Ha1; congruence).
  assert (objects w2 !! a = Some (mk_ODESystemSimulator f N)) as Ha2.
  { unfold w2. cbn [objects set_objects]. rewrite lookup_insert_ne by congruence. exact Ha1. }
  exists a, b, w2. split; [reflexivity|]. split; [exact Hne|].
  split.
  { transitivity (objects w1); apply insert_subseteq; assumption. }
  split; [exact Ha2|]. split; [apply lookup_insert_eq|].
  destruct (Z.eqb_spec (Z.of_nat (length y0)) N) as [Hlen|Hlen].
  - exact (getOutput_matching_length w2 a ic t _ y0 ts Ha2 Hic Ht Hlen).
  - exact (getOutput_differing_length w2 a ic t _ y0 Ha2 Hic Hlen).
Qed.

End TrajectoriesRuns.

(** ** The further properties on the world of the script *)

Lemma concentrations_draws_each_variable_on_script :
  exists (grid : list float) (X : ndarray) (w' : World),
    linspace 0%float 200%float 100000 = Return grid /\
    reply_value (fst (odeint (Integrator := euler) dX_dt (repeat 0%float (Z.to_nat 2)) grid
                        (solver (euler_world 0%nat)))) = Return X /\
    concentrations (integ := euler) 1%positive 200%float [0%Z; 1%Z] (euler_world 0%nat)
      = (Return tt, w') /\
    solver w' = snd (odeint (Integrator := euler) dX_dt (repeat 0%float (Z.to_nat 2)) grid
                       (solver (euler_world 0%nat))) /\
    figure w' = figure (euler_world 0%nat) ++ Figure :: map (curve grid X) [0%Z; 1%Z]
                  ++ [Title "System Concentrations over time"; XLabel "Time, $t$";
                      YLabel "Variable Concentrations"; Legend; Show].
Proof.
  refine (concentrations_draws_each_variable (integ := euler) (euler_world 0%nat) 1%positive
            dX_dt 2 200%float [0%Z; 1%Z] euler_returns_table _ dX_dt_of_size_2 _ _);
    [lia | reflexivity | repeat constructor; lia].
Defined.

Lemma concentrations_variable_out_of_range_on_script :
  fst (concentrations (integ := euler) 1%positive 200%float [0%Z; 2%Z] (euler_world 0%nat))
    = Raise IndexError.
Proof.
  refine (concentrations_variable_out_of_range (integ := euler) (euler_world 0%nat) 1%positive
            dX_dt 2 200%float [0%Z; 2%Z] euler_returns_table _ dX_dt_of_size_2 _ _);
    [lia | reflexivity | apply Exists_cons_tl, Exists_cons_hd; lia].
Defined.

Lemma concentrations_negative_size_on_script :
  fst (concentrations (integ := euler) 1%positive 200%float [0%Z; 1%Z] negative_size_world)
    = Raise TypeError /\
  solver (snd (concentrations (integ := euler) 1%positive 200%float [0%Z; 1%Z]
                 negative_size_world)) = solver negative_size_world /\
  figure (snd (concentrations (integ := euler) 1%positive 200%float [0%Z; 1%Z]
                 negative_size_world)) = figure negative_size_world.
Proof.
  refine (concentrations_negative_size (integ := euler) negative_size_world 1%positive
            (mk_ODESystemSimulator dX_dt (-1)) 200%float [0%Z; 1%Z] _ _);
    [reflexivity | cbn; lia].
Defined.

Lemma trajectories_wrong_length_on_script :
  is_return (fst (trajectories (integ := euler) (np := sqrt_hypot) (plt := fixed_axes 30 30)
                    1%positive [1%positive; 4%positive] 20 1000%float 0 1 (euler_world 0%nat)))
    = false.
Proof.
  refine (trajectories_wrong_length (integ := euler) (np := sqrt_hypot)
            (plt := fixed_axes 30 30) (euler_world 0%nat) 1%positive
            (mk_ODESystemSimulator dX_dt 2) [1%positive; 4%positive] 20 1000%float 0 1
            4%positive [0%float] _ _ _ _);
    [reflexivity | right; left; reflexivity | reflexivity | cbn; lia].
Defined.

Lemma trajectories_too_many_initial_conditions_on_script :
  fst (trajectories (integ := euler) (np := sqrt_hypot) (plt := fixed_axes 30 30)
         1%positive (repeat 1%positive 1751) 20 1000%float 0 1 (euler_world 0%nat))
    = Raise OverflowError /\
  solver (snd (trajectories (integ := euler) (np := sqrt_hypot) (plt := fixed_axes 30 30)
                 1%positive (repeat 1%positive 1751) 20 1000%float 0 1 (euler_world 0%nat)))
    = solver (euler_world 0%nat) /\
  figure (snd (trajectories (integ := euler) (np := sqrt_hypot) (plt := fixed_axes 30 30)
                 1%positive (repeat 1%positive 1751) 20 1000%float 0 1 (euler_world 0%nat)))
    = figure (euler_world 0%nat) ++ [Figure].
Proof.
  refine (trajectories_too_many_initial_conditions (integ := euler) (np := sqrt_hypot)
            (plt := fixed_axes 30 30) (euler_world 0%nat) 1%positive
            (repeat 1%positive 1751) 20 1000%float 0 1 _).
  rewrite repeat_length. lia.
Defined.

Lemma trajectories_negative_sampling_on_script :
  is_return (fst (trajectories (integ := euler) (np := sqrt_hypot) (plt := fixed_axes 30 30)
                    1%positive [1%positive] (-1) 1000%float 0 1 (euler_world 0%nat)))
    = false.
Proof.
  refine (trajectories_negative_sampling (integ := euler) (np := sqrt_hypot)
            (plt := fixed_axes 30 30) (euler_world 0%nat) 1%positive [1%positive] (-1)
            1000%float 0 1 _).
  lia.
Defined.

Lemma two_simulators_are_independent_on_script :
  exists (first second : loc) (w2 : World),
    bind (init (integ := euler) dX_dt 2)
      (fun a => bind (init shared_decay 3) (fun b => ret (a, b))) (euler_world 0%nat)
      = (Return (first, second), w2) /\
    first <> second /\
    objects (euler_world 0%nat) ⊆ objects w2 /\
    objects w2 !! first = Some (mk_ODESystemSimulator dX_dt 2) /\
    objects w2 !! second = Some (mk_ODESystemSimulator shared_decay 3) /\
    getOutput first 1%positive 5%positive w2
    = if (Z.of_nat (length [0%float; 0%float]) =? 2)%Z
      then call_odeint dX_dt [0%float; 0%float] [0%float; 1%float; 2%float] w2
      else (Raise TypeError, w2).
Proof.
  refine (two_simulators_are_independent (integ := euler) (euler_world 0%nat) dX_dt
            shared_decay 2 3 1%positive 5%positive [0%float; 0%float]
            [0%float; 1%float; 2%float] _ _);
    reflexivity.
Defined.

(** ** The direction field alone *)

Section BareDirectionField.
Context {integ : Integrator} {np : Numpy} {plt : Pylab}.

(** X14: with no initial condition and a sampling count that is not
    negative, [trajectories] on a simulator of [dX_dt] runs to its end
    without a call of the solver.  It draws a new figure, sets the lower
    axis limits to 0, reads the upper ones from pylab, and hands [quiver]
    the direction field of [dX_dt] over these limits; then come the labels,
    the legend, the grid, the axis limits and the show. *)
Theorem trajectories_without_initial_conditions (w : World) (self : loc) (N : Z)
    (samplingPoints : Z) (endTime : float) (X1 X2 : Z) :
  objects w !! self = Some (mk_ODESystemSimulator dX_dt N) ->
  (0 <= samplingPoints)%Z ->
  exists (fld : Field) (w' : World),
    trajectories self [] samplingPoints endTime X1 X2 w = (Return tt, w') /\
    bind (direction_field dX_dt
            (axis_right (figure w ++ [Figure; SetYMin 0%float; SetXMin 0%float]))
            (axis_top (figure w ++ [Figure; SetYMin 0%float]))
            samplingPoints) read_field (arrays w)
      = (Return fld, arrays w') /\
    solver w' = solver w /\
    figure w' = figure w ++
      [Figure; SetYMin 0%float; SetXMin 0%float; Title "Trajectories and Directions";
       Quiver fld;
       XLabel ("$X_" +:+ pretty X1 +:+ "$"); YLabel ("$X_" +:+ pretty X2 +:+ "$");
       Legend; Grid;
       XLim 0%float (axis_right (figure w ++ [Figure; SetYMin 0%float; SetXMin 0%float]));
       YLim 0%float (axis_top (figure w ++ [Figure; SetYMin 0%float]));
       Show].
Proof.
  intros Hself Hn.
  set (ymax := axis_top (figure w ++ [Figure; SetYMin 0%float])).
  set (xmax := axis_right (figure w ++ [Figure; SetYMin 0%float; SetXMin 0%float])).
  destruct (linspace_samples 0%float endTime 100000 ltac:(lia)) as (grid & Hgrid & _).
  destruct (linspace_nonneg 0%float xmax samplingPoints Hn) as (xs & Hx & _).
  destruct (linspace_nonneg 0%float ymax samplingPoints Hn) as (ys & Hy & _).
  destruct (direction_field_of_dX_dt_run (arrays w) xmax ymax samplingPoints xs ys Hx Hy)
    as (lX & lY & ldx & ldy & lm & aX & aY & aDX & aDY & aM & s'
        & Hrun & Hsub & HX & HY & HDX & HDY & HM & _).
  unfold direction_field in Hrun. unfold bind at 1 in Hrun.
  destruct (make_grid xmax ymax samplingPoints (arrays w)) as [[g|e] s2] eqn:Hg;
    [|discriminate].
  assert (read_field (VArray lX, VArray lY, VArray ldx, VArray ldy, VArray lm) s'
          = (Return (mk_Field aX aY aDX aDY aM), s')) as Hread.
  { unfold read_field, bind, read_array. rewrite HX, HY, HDX, HDY, HM. reflexivity. }
  exists (mk_Field aX aY aDX aDY aM). eexists. split.
  { unfold trajectories.
    unfold bind at 1. unfold draw at 1. cbv beta iota.
    unfold bind at 1. unfold lift_outcome at 1. rewrite Hgrid.
    unfold bind at 1. unfold new_list at 1. cbv beta iota zeta.
    unfold bind at 1. unfold lift_outcome at 1.
    change (py_float_pow 1.5%float (length (@nil loc))) with (Return 1%float).
    cbv beta iota.
    unfold bind at 1. cbn [for_each]. unfold ret at 1. cbv beta iota.
    unfold bind at 1. unfold draw at 1. cbv beta iota.
    unfold bind at 1. unfold read_axis at 1. cbv beta iota.
    cbn [figure set_figure set_lists].
    unfold bind at 1. unfold draw at 1. cbv beta iota.
    unfold bind at 1. unfold read_axis at 1. cbv beta iota.
    cbn [figure set_figure set_lists].
    repeat rewrite <- app_assoc. cbn [app]. fold ymax. fold xmax.
    unfold bind at 1. unfold on_arrays at 1. cbn [arrays set_figure set_lists].
    rewrite Hg.
    unfold bind at 1. unfold get_systemFunction at 1.
    cbn [objects set_arrays set_figure set_lists]. rewrite Hself. cbn [systemFunction].
    unfold bind at 1. unfold on_arrays at 1. cbn [arrays set_arrays].
    rewrite Hrun.
    unfold bind at 1. unfold draw at 1. cbv beta iota.
    unfold bind at 1. unfold on_arrays at 1. cbn [arrays set_arrays set_figure].
    rewrite Hread.
    unfold bind, draw. cbv beta iota. reflexivity. }
  cbn [arrays solver figure set_figure set_arrays set_lists].
  split.
  { unfold direction_field. unfold bind at 1. unfold bind at 1. rewrite Hg, Hrun.
    exact Hread. }
  split; [reflexivity|].
  repeat rewrite <- app_assoc. reflexivity.
Qed.

End BareDirectionField.

Lemma trajectories_without_initial_conditions_on_script :
  exists (fld : Field) (w' : World),
    trajectories (integ := euler) (np := sqrt_hypot) (plt := fixed_axes 4 3)
      1%positive [] 2 1000%float 0 1 (euler_world 0%nat) = (Return tt, w') /\
    bind (direction_field (H := sqrt_hypot) dX_dt
            (axis_right (Pylab := fixed_axes 4 3)
               (figure (euler_world 0%nat) ++ [Figure; SetYMin 0%float; SetXMin 0%float]))
            (axis_top (Pylab := fixed_axes 4 3)
               (figure (euler_world 0%nat) ++ [Figure; SetYMin 0%float]))
            2) read_field (arrays (euler_world 0%nat))
      = (Return fld, arrays w') /\
    solver w' = solver (euler_world 0%nat) /\
    figure w' = figure (euler_world 0%nat) ++
      [Figure; SetYMin 0%float; SetXMin 0%float; Title "Trajectories and Directions";
       Quiver fld;
       XLabel ("$X_" +:+ pretty 0%Z +:+ "$"); YLabel ("$X_" +:+ pretty 1%Z +:+ "$");
       Legend; Grid;
       XLim 0%float (axis_right (Pylab := fixed_axes 4 3)
                       (figure (euler_world 0%nat) ++ [Figure; SetYMin 0%float; SetXMin 0%float]));
       YLim 0%float (axis_top (Pylab := fixed_axes 4 3)
                       (figure (euler_world 0%nat) ++ [Figure; SetYMin 0%float]));
       Show].
Proof.
  refine (trajectories_without_initial_conditions (integ := euler) (np := sqrt_hypot)
            (plt := fixed_axes 4 3) (euler_world 0%nat) 1%positive 2 2 1000%float 0 1 _ _);
    [reflexivity | lia].
Defined.
